(** * LUMINAOPTIX: the optics solvers of [app.py]

    A shallow embedding of the Snell's-law solver, the thin-lens solver,
    the free-text parameter extractor and the two request handlers of
    [app.py], followed by the properties stated about them.

    Modelling conventions.
    - A Python [str] is a list of Unicode code points ([str]).  String
      literals of the source are written as they are and decoded from the
      UTF-8 bytes of this file by [U].
    - The numbers of the program are read in two ways.
      In the exact reading (the first part of the file) a Python [float]
      is a real number of [R]: rounding, infinities and NaN are left out,
      and [\d] is an ASCII digit.  It carries the statements about the
      branches taken, the texts of the records and what the handlers pass
      on, where rounding plays no part.
      In the binary64 reading ([Binary64]) a [float] is an IEEE 754
      binary64 number with the interpreter's rounding, overflow, NaN and
      signed zeros, and [\d] and [float] accept the decimal digits of
      every script.  It carries the statements about the values the lens
      solver computes and about what the extractor reads.  The Snell
      solver calls the sine and arcsine of the C library, whose binary64
      results the source does not determine: in this reading it is a
      parameter.
    - An [int] is a [Z] (of a size whose decimal form the interpreter
      converts).  The values a JSON field can deliver to the solvers are
      [None], an [int] or a [float] ([value]); strings, booleans and
      containers are left out.
    - A raised exception is the [Raise] case of [result]; the [try/except]
      of the handlers turns it into the error-shaped response.
    - [str.lower], [repr] of a float, [str] of an exception and the table
      of the decimal digits beyond ASCII are Python built-ins whose tables
      are not part of the repository; they are variables of the sections
      that hold the program. *)

From Stdlib Require Import String Ascii.
From Stdlib Require Import Reals Lra Lia ZArith NArith List Bool SpecFloat.
From Stdlib Require QArith.
Import ListNotations.

(** ** Text: code points, literals, substring tests *)

Module Text.

Definition char := N.
Definition str := list char.

(** Decoder for the UTF-8 bytes of a string literal (1 to 4 bytes per code
    point; the literals of the source are well-formed). *)
Fixpoint U (s : string) : str :=
  match s with
  | EmptyString => []
  | String a r1 =>
    let b := N_of_ascii a in
    if (b <? 128)%N then b :: U r1
    else match r1 with
      | EmptyString => [b]
      | String a2 r2 =>
        let c2 := (N_of_ascii a2 - 128)%N in
        if (b <? 224)%N then ((b - 192) * 64 + c2)%N :: U r2
        else match r2 with
          | EmptyString => [b]
          | String a3 r3 =>
            let c3 := (N_of_ascii a3 - 128)%N in
            if (b <? 240)%N then ((b - 224) * 4096 + c2 * 64 + c3)%N :: U r3
            else match r3 with
              | EmptyString => [b]
              | String a4 r4 =>
                let c4 := (N_of_ascii a4 - 128)%N in
                ((b - 240) * 262144 + c2 * 4096 + c3 * 64 + c4)%N :: U r4
              end
          end
      end
  end.

Fixpoint str_eqb (s t : str) : bool :=
  match s, t with
  | [], [] => true
  | a :: s', b :: t' => (a =? b)%N && str_eqb s' t'
  | _, _ => false
  end.

(** [strip_prefix p s] is [Some r] when [s = p ++ r]. *)
Fixpoint strip_prefix (p s : str) : option str :=
  match p with
  | [] => Some s
  | a :: p' =>
    match s with
    | [] => None
    | b :: s' => if (a =? b)%N then strip_prefix p' s' else None
    end
  end.

Definition starts_with (p s : str) : bool :=
  match strip_prefix p s with Some _ => true | None => false end.

(** [contains w s] is Python's [w in s]. *)
Fixpoint contains (w s : str) : bool :=
  starts_with w s ||
  match s with
  | [] => false
  | _ :: s' => contains w s'
  end.

(** [sep.join(parts)]. *)
Fixpoint join (sep : str) (parts : list str) : str :=
  match parts with
  | [] => []
  | [p] => p
  | p :: ps => p ++ sep ++ join sep ps
  end.

(** [s.split(c)] for a one-character separator. *)
Fixpoint split_acc (c : char) (cur : str) (s : str) : list str :=
  match s with
  | [] => [rev cur]
  | a :: s' =>
    if (a =? c)%N then rev cur :: split_acc c [] s'
    else split_acc c (a :: cur) s'
  end.

Definition split (c : char) (s : str) : list str := split_acc c [] s.

(** Longest prefix whose characters satisfy [p], and the rest. *)
Fixpoint span (p : char -> bool) (s : str) : str * str :=
  match s with
  | [] => ([], [])
  | a :: s' =>
    if p a then let (u, v) := span p s' in (a :: u, v) else ([], s)
  end.

(** [\d] on ASCII text.  (Python's [\d] also accepts the decimal digits of
    other scripts, on which [float] agrees; texts are taken to write
    numbers with ASCII digits.) *)
Definition is_digit (c : char) : bool := (48 <=? c)%N && (c <=? 57)%N.

(** [\s]: the characters for which [str.isspace] holds. *)
Definition is_space (c : char) : bool :=
  ((9 <=? c) && (c <=? 13) || (28 <=? c) && (c <=? 32) || (c =? 133)
   || (c =? 160) || (c =? 5760) || (8192 <=? c) && (c <=? 8202)
   || (c =? 8232) || (c =? 8233) || (c =? 8239) || (c =? 8287)
   || (c =? 12288))%N.

Definition is_sep (c : char) : bool := ((c =? 61) || (c =? 58))%N.
Definition is_dot (c : char) : bool := (c =? 46)%N.
Definition is_minus (c : char) : bool := (c =? 45)%N.

(** Decimal digits of a natural number, most significant first. *)
Fixpoint digits_fuel (fuel : nat) (n : N) (acc : str) : str :=
  match fuel with
  | O => acc
  | S fuel' =>
    let acc' := (48 + n mod 10)%N :: acc in
    if (n / 10 =? 0)%N then acc' else digits_fuel fuel' (n / 10)%N acc'
  end.

Definition decimal (n : N) : str :=
  digits_fuel (S (N.to_nat (N.log2 n))) n [].

(** Value of a string of ASCII digits. *)
Definition digits_value (s : str) : N :=
  fold_left (fun acc c => (acc * 10 + (c - 48))%N) s 0%N.

(** Left padding with zeros up to [w] characters. *)
Definition zero_pad (w : nat) (s : str) : str :=
  repeat 48%N (w - length s) ++ s.

End Text.
Import Text.

(** ** Regular expressions: the fragment of [re] the program uses

    A backtracking matcher in continuation-passing style, with Python's
    priorities: alternatives left to right, greedy repetition and option,
    the leftmost start position first. *)

Module Regex.

Inductive regex : Type :=
| Eps
| Chr (c : char)
| Cls (p : char -> bool)
| Seq (r1 r2 : regex)
| Alt (r1 r2 : regex)
| Star (p : char -> bool)
| Opt (r : regex)
| Grp (r : regex).

(** A match object: [m.group()] and [m.group(1)]. *)
Record match_obj : Type := { group0 : str; group1 : option str }.

(** The part of [s] consumed when [s'] remains. *)
Definition taken (s s' : str) : str := firstn (length s - length s') s.

Section Matcher.
Variable A : Type.

Fixpoint star (p : char -> bool) (s : str) (k : str -> option A)
  : option A :=
  match s with
  | [] => k []
  | c :: s' =>
    if p c then
      match star p s' k with
      | Some a => Some a
      | None => k s
      end
    else k s
  end.

Fixpoint run (r : regex) (s : str) (g : option str)
         (k : str -> option str -> option A) : option A :=
  match r with
  | Eps => k s g
  | Chr c =>
    match s with
    | [] => None
    | x :: s' => if (x =? c)%N then k s' g else None
    end
  | Cls p =>
    match s with
    | [] => None
    | x :: s' => if p x then k s' g else None
    end
  | Seq r1 r2 => run r1 s g (fun s' g' => run r2 s' g' k)
  | Alt r1 r2 =>
    match run r1 s g k with
    | Some a => Some a
    | None => run r2 s g k
    end
  | Star p => star p s (fun s' => k s' g)
  | Opt r1 =>
    match run r1 s g k with
    | Some a => Some a
    | None => k s g
    end
  | Grp r1 => run r1 s g (fun s' _ => k s' (Some (taken s s')))
  end.
End Matcher.
Arguments star {A} p s k.
Arguments run {A} r s g k.

(** [re.match]: a match starting at the head of [s]. *)
Definition match_at (r : regex) (s : str) : option match_obj :=
  run r s None (fun s' g => Some {| group0 := taken s s'; group1 := g |}).

(** [re.search]: the match at the leftmost position that has one. *)
Fixpoint search (r : regex) (s : str) : option match_obj :=
  match match_at r s with
  | Some m => Some m
  | None =>
    match s with
    | [] => None
    | _ :: s' => search r s'
    end
  end.

(** A literal word, [p+], and an alternation of literal words. *)
Definition lit (w : str) : regex :=
  fold_right (fun c r => Seq (Chr c) r) Eps w.

Definition plus (p : char -> bool) : regex := Seq (Cls p) (Star p).

Fixpoint one_of (ws : list str) : regex :=
  match ws with
  | [] => Cls (fun _ => false)
  | [w] => lit w
  | w :: ws' => Alt (lit w) (one_of ws')
  end.

End Regex.
Import Regex.

(** ** Python values, exceptions and numeric formatting *)

Inductive fault : Type :=
| ZeroDivisionError
| ValueError
| TypeError
| AttributeError.

Inductive result (A : Type) : Type :=
| Ok (a : A)
| Raise (e : fault).
Arguments Ok {A} a.
Arguments Raise {A} e.

Definition bind {A B : Type} (m : result A) (f : A -> result B) : result B :=
  match m with
  | Ok a => f a
  | Raise e => Raise e
  end.

Notation "x <- m ;; k" := (bind m (fun x => k))
  (at level 61, m at next level, right associativity).

(** What a solver argument can be: [None], an [int] or a [float]. *)
Inductive value : Type :=
| VNone
| VInt (z : Z)
| VFloat (r : R).

Definition is_none (v : value) : bool :=
  match v with VNone => true | _ => false end.

(** The number an arithmetic operand stands for; [None] is a [TypeError]. *)
Definition real_of (v : value) : result R :=
  match v with
  | VNone => Raise TypeError
  | VInt z => Ok (IZR z)
  | VFloat r => Ok r
  end.

(** Python's [a / b] on floats. *)
Definition fdiv (a b : R) : result R :=
  if Req_dec_T b 0 then Raise ZeroDivisionError else Ok (a / b)%R.

(** Python's [a / b] on solver arguments: operand types are checked first. *)
Definition py_div (a b : value) : result R :=
  x <- real_of a ;;
  y <- real_of b ;;
  fdiv x y.

(** Truth value of a solver argument, as [or] tests it. *)
Definition truthy (v : value) : bool :=
  match v with
  | VNone => false
  | VInt z => negb (z =? 0)%Z
  | VFloat r => if Req_dec_T r 0 then false else true
  end.

Definition radians (x : R) : R := (x * (PI / 180))%R.
Definition degrees (x : R) : R := (x * (180 / PI))%R.

(** [math.asin]: a [ValueError] outside [[-1, 1]]. *)
Definition py_asin (x : R) : result R :=
  if Rle_dec (Rabs x) 1 then Ok (asin x) else Raise ValueError.

(** Rounding to the nearest integer, ties to even: the rounding of the
    [.Nf] format. *)
Definition round_half_even (x : R) : Z :=
  let fl := (up x - 1)%Z in
  let frac := (x - IZR fl)%R in
  if Rlt_dec frac (1 / 2) then fl
  else if Rlt_dec (1 / 2) frac then (fl + 1)%Z
  else if Z.even fl then fl else (fl + 1)%Z.

(** [format(x, '.<prec>f')]. *)
Definition format_f (prec : nat) (x : R) : str :=
  let scale := (10 ^ N.of_nat prec)%N in
  let k := Z.abs_N (round_half_even (x * IZR (Z.of_N scale))) in
  (if Rlt_dec x 0 then U "-" else []) ++
  decimal (k / scale) ++ U "." ++ zero_pad prec (decimal (k mod scale)).

(** [str] of an [int]. *)
Definition repr_int (z : Z) : str :=
  (if (z <? 0)%Z then U "-" else []) ++ decimal (Z.abs_N z).

(** [float(s)] for the strings the program's patterns can capture: an
    optional sign, digits, at most one point, at least one digit.  (The
    exponent, [inf]/[nan], underscore and surrounding-blank forms that
    [float] also reads cannot come out of those patterns.) *)
Definition py_float (s : str) : result R :=
  let signed :=
    match s with
    | c :: t => if is_minus c then (true, t)
                else if (c =? 43)%N then (false, t) else (false, s)
    | [] => (false, s)
    end in
  let (ip, rest) := span is_digit (snd signed) in
  let sgn := if fst signed then (-1)%R else 1%R in
  match rest with
  | [] =>
    match ip with
    | [] => Raise ValueError
    | _ => Ok (sgn * IZR (Z.of_N (digits_value ip)))%R
    end
  | c :: fp =>
    if is_dot c && forallb is_digit fp
       && negb (Nat.eqb (length ip + length fp) 0)
    then Ok (sgn * (IZR (Z.of_N (digits_value (ip ++ fp)))
                    / IZR (Z.of_N (10 ^ N.of_nat (length fp)))))%R
    else Raise ValueError
  end.

(** ** Solution records and responses *)

(** The [animationData] payload, one constructor per ['type'] tag. *)
Inductive animation : Type :=
| Tir (n1 n2 theta1 : value) (critical_angle : R)
| Refraction (n1 n2 theta1 : value) (theta2 : R)
| Lens (f do_ di : value).

(** The dictionary a solver returns.  [animationData] and [error] are the
    keys that some records lack. *)
Record record : Type := {
  Detected : str;
  Given : str;
  Formula : str;
  Steps : str;
  Answer : str;
  animationData : option animation;
  error : option str
}.

(** The parameters found in a free text ([params]). *)
Record params : Type := {
  p_n1 : option R;
  p_n2 : option R;
  p_theta1 : option R;
  p_f : option R;
  p_do : option R;
  p_di : option R
}.

(** The JSON body of a [/calculate] request: a field is [None] when its key
    is missing and [Some VNone] when it is [null]. *)
Record request : Type := {
  mode : option str;
  q_n1 : option value;
  q_n2 : option value;
  q_theta1 : option value;
  q_f : option value;
  q_do : option value;
  q_di : option value
}.

Inductive exact : Type :=
| ExFloat (x : R)
| ExStr (s : str)
| ExNull.

(** The JSON object [/calculate] answers with. *)
Inductive response : Type :=
| Solved (result_ : str) (calculation_steps : list str)
         (exact_value : exact) (animation_data : option animation)
| Failed (error_ : str).

(** [d.get(key, default)]. *)
Definition get_or {A : Type} (field : option A) (default : A) : A :=
  match field with
  | Some v => v
  | None => default
  end.

Definition newline : str := [10%N].

(** The patterns of the parameter extractor: the names, blanks, [=] or [:],
    blanks, and the captured number (digits, an optional point, digits). *)
Definition number_group : regex :=
  Grp (Seq (plus is_digit) (Seq (Opt (Chr 46%N)) (Star is_digit))).

Definition assignment (names : list str) : regex :=
  Seq (one_of names)
      (Seq (Star is_space) (Seq (Cls is_sep) (Seq (Star is_space) number_group))).

Definition re_n1 : regex := assignment [U "n1"].
Definition re_n2 : regex := assignment [U "n2"].
Definition re_theta1 : regex := assignment [U "theta1"; U "θ1"; U "angle"].
Definition re_f : regex := assignment [U "f"].
Definition re_do : regex := assignment [U "do"].
Definition re_di : regex := assignment [U "di"].

(** [[\d.]+] and [[\d.-]+]. *)
Definition re_unsigned : regex := plus (fun c => is_digit c || is_dot c).
Definition re_signed : regex :=
  plus (fun c => is_digit c || is_dot c || is_minus c).

Definition refraction_words : list str :=
  [U "refract"; U "snell"; U "angle"; U "n1"; U "n2"].
Definition lens_words : list str :=
  [U "lens"; U "focal"; U "object"; U "image"].

(** [any(word in text for word in words)]. *)
Definition any_in (words : list str) (text : str) : bool :=
  existsb (fun w => contains w text) words.

(** [float(m.group(1))] when the search found a match [m]. *)
Definition float_group1 (m : option match_obj) : result (option R) :=
  match m with
  | None => Ok None
  | Some mo =>
    match group1 mo with
    | Some g => x <- py_float g ;; Ok (Some x)
    | None => Raise TypeError
    end
  end.

(** ** The program *)

Section Program.

(** [str.lower], [repr] of a float, [str] of an exception. *)
Variable lower : str -> str.
Variable repr_float : R -> str.
Variable str_exc : fault -> str.

(** [f"{v}"]. *)
Definition show (v : value) : str :=
  match v with
  | VNone => U "None"
  | VInt z => repr_int z
  | VFloat r => repr_float r
  end.

(** [f"{v or '?'}"]. *)
Definition show_or_unknown (v : value) : str :=
  if truthy v then show v else U "?".

Definition given_snell (n1 n2 theta1 : value) : str :=
  U "n₁ = " ++ show n1 ++ U ", n₂ = " ++ show n2
    ++ U ", θ₁ = " ++ show theta1 ++ U "°".

Definition calculate_snell (n1 n2 theta1 : value) : result record :=
  t <- real_of theta1 ;;
  let theta1_rad := radians t in
  let sin_theta1 := sin theta1_rad in
  ratio <- py_div n1 n2 ;;
  let sin_theta2 := (ratio * sin_theta1)%R in
  let steps :=
    [ U "Step 1: sinθ₂ = (n₁ / n₂) × sinθ₁ = (" ++ show n1 ++ U " / "
        ++ show n2 ++ U ") × sin(" ++ show theta1 ++ U "°)";
      U "Step 2: sinθ₂ = " ++ format_f 6 ratio ++ U " × "
        ++ format_f 6 sin_theta1 ++ U " = " ++ format_f 8 sin_theta2 ] in
  if Rlt_dec 1 (Rabs sin_theta2) then
    inv <- py_div n2 n1 ;;
    a <- py_asin inv ;;
    let critical_angle := degrees a in
    let steps := steps ++
      [ U "Step 3: |sinθ₂| = " ++ format_f 6 (Rabs sin_theta2)
          ++ U " > 1 → Total Internal Reflection";
        U "Step 4: Critical Angle = arcsin(n₂/n₁) = arcsin(" ++ show n2
          ++ U "/" ++ show n1 ++ U ") = " ++ format_f 6 critical_angle
          ++ U "°" ] in
    Ok {| Detected := U "Refraction Problem - Total Internal Reflection";
          Given := given_snell n1 n2 theta1;
          Formula := U "n₁ × sinθ₁ = n₂ × sinθ₂";
          Steps := join newline steps;
          Answer := U "Total Internal Reflection occurs" ++ newline
                      ++ U "Critical Angle: " ++ format_f 6 critical_angle
                      ++ U "°";
          animationData := Some (Tir n1 n2 theta1 critical_angle);
          error := None |}
  else
    a <- py_asin sin_theta2 ;;
    let theta2 := degrees a in
    let steps := steps ++
      [ U "Step 3: θ₂ = arcsin(" ++ format_f 6 sin_theta2 ++ U ") = "
          ++ format_f 6 theta2 ++ U "°" ] in
    Ok {| Detected := U "Refraction Problem";
          Given := given_snell n1 n2 theta1;
          Formula := U "Snell's Law: n₁ × sinθ₁ = n₂ × sinθ₂";
          Steps := join newline steps;
          Answer := U "θ₂ = " ++ format_f 6 theta2 ++ U "°";
          animationData := Some (Refraction n1 n2 theta1 theta2);
          error := None |}.

Definition given_lens (f do_ di : value) : str :=
  U "f = " ++ show_or_unknown f ++ U ", do = " ++ show_or_unknown do_
    ++ U ", di = " ++ show_or_unknown di.

(** [sum(1 for val in [f, do, di] if val is not None)]. *)
Definition provided (f do_ di : value) : nat :=
  length (filter (fun v => negb (is_none v)) [f; do_; di]).

(** The record built by the final [return] of [calculate_lens]. *)
Definition lens_record (f do_ di : value) (find : str) (steps : list str)
           (result_value : R) (animation_data : animation) : record :=
  {| Detected := U "Lens Problem";
     Given := given_lens f do_ di;
     Formula := U "Thin Lens Equation: 1/f = 1/do + 1/di";
     Steps := join newline steps;
     Answer := find ++ U " = " ++ format_f 6 result_value ++ U " cm";
     animationData := Some animation_data;
     error := None |}.

Definition calculate_lens (f do_ di : value) : result record :=
  if negb (Nat.eqb (provided f do_ di) 2) then
    Ok {| Detected := U "Lens Problem";
          Given := given_lens f do_ di;
          Formula := U "1/f = 1/do + 1/di";
          Steps := U "Error: Please provide exactly two of the three values";
          Answer := U "Insufficient data provided";
          animationData := None;
          error := None |}
  else if negb (is_none f) && negb (is_none do_) && is_none di then
    rf <- py_div (VInt 1) f ;;
    rdo <- py_div (VInt 1) do_ ;;
    di_calc <- fdiv 1 (rf - rdo) ;;
    let steps :=
      [ U "Step 1: 1/di = 1/f - 1/do = 1/" ++ show f ++ U " - 1/"
          ++ show do_;
        U "Step 2: 1/di = " ++ format_f 6 rf ++ U " - " ++ format_f 6 rdo
          ++ U " = " ++ format_f 6 (rf - rdo);
        U "Step 3: di = 1 / " ++ format_f 6 (rf - rdo) ++ U " = "
          ++ format_f 6 di_calc ++ U " cm" ] in
    Ok (lens_record f do_ di (U "di") steps di_calc
          (Lens f do_ (VFloat di_calc)))
  else if negb (is_none f) && negb (is_none di) && is_none do_ then
    rf <- py_div (VInt 1) f ;;
    rdi <- py_div (VInt 1) di ;;
    do_calc <- fdiv 1 (rf - rdi) ;;
    let steps :=
      [ U "Step 1: 1/do = 1/f - 1/di = 1/" ++ show f ++ U " - 1/"
          ++ show di;
        U "Step 2: 1/do = " ++ format_f 6 rf ++ U " - " ++ format_f 6 rdi
          ++ U " = " ++ format_f 6 (rf - rdi);
        U "Step 3: do = 1 / " ++ format_f 6 (rf - rdi) ++ U " = "
          ++ format_f 6 do_calc ++ U " cm" ] in
    Ok (lens_record f do_ di (U "do") steps do_calc
          (Lens f (VFloat do_calc) di))
  else if negb (is_none do_) && negb (is_none di) && is_none f then
    rdo <- py_div (VInt 1) do_ ;;
    rdi <- py_div (VInt 1) di ;;
    f_calc <- fdiv 1 (rdo + rdi) ;;
    let steps :=
      [ U "Step 1: 1/f = 1/do + 1/di = 1/" ++ show do_ ++ U " + 1/"
          ++ show di;
        U "Step 2: 1/f = " ++ format_f 6 rdo ++ U " + " ++ format_f 6 rdi
          ++ U " = " ++ format_f 6 (rdo + rdi);
        U "Step 3: f = 1 / " ++ format_f 6 (rdo + rdi) ++ U " = "
          ++ format_f 6 f_calc ++ U " cm" ] in
    Ok (lens_record f do_ di (U "f") steps f_calc
          (Lens (VFloat f_calc) do_ di))
  else
    (* no branch taken: [result_value] is still [None] when formatted *)
    Raise TypeError.

(** The record the [except] clause of [/analyze] answers with. *)
Definition failure_record (e : fault) : record :=
  {| Detected := U "Error";
     Given := U "Problem parsing failed";
     Formula := U "N/A";
     Steps := U "Error: " ++ str_exc e;
     Answer := U "Calculation failed";
     animationData := None;
     error := Some (str_exc e) |}.

Definition unrecognized_record : record :=
  {| Detected := U "Optical Problem";
     Given := U "Could not identify specific problem type";
     Formula := U "Please include keywords like: refraction, lens, focal, angle";
     Steps := U "Try rephrasing with specific optical terms";
     Answer := U "Unable to analyze - please provide more context";
     animationData := None;
     error := None |}.

(** The parameter extractor: the six searches of [analyze_problem] and the
    conversions of what they captured. *)
Definition extract (problem_text : str) : result params :=
  n1 <- float_group1 (search re_n1 problem_text) ;;
  n2 <- float_group1 (search re_n2 problem_text) ;;
  theta1 <- float_group1 (search re_theta1 problem_text) ;;
  f <- float_group1 (search re_f problem_text) ;;
  do_ <- float_group1 (search re_do problem_text) ;;
  di <- float_group1 (search re_di problem_text) ;;
  Ok {| p_n1 := n1; p_n2 := n2; p_theta1 := theta1;
        p_f := f; p_do := do_; p_di := di |}.

(** [params.get(key, default)] and [params.get(key)]. *)
Definition param_or (x : option R) (default : R) : value :=
  VFloat (get_or x default).

Definition param (x : option R) : value :=
  match x with
  | Some r => VFloat r
  | None => VNone
  end.

(** The [try] block of [analyze_problem], from the lower-cased text on. *)
Definition analyze_text (problem_text : str) : result (list record) :=
  ps <- extract problem_text ;;
  if any_in refraction_words problem_text then
    let n1 := param_or (p_n1 ps) 1 in
    let n2 := param_or (p_n2 ps) (15 / 10) in
    let theta1 := param_or (p_theta1 ps) 30 in
    r <- calculate_snell n1 n2 theta1 ;;
    Ok [r]
  else if any_in lens_words problem_text then
    let f := param (p_f ps) in
    let do_ := param (p_do ps) in
    let di := param (p_di ps) in
    r <- calculate_lens f do_ di ;;
    Ok [r]
  else Ok [unrecognized_record].

(** [/analyze]: [problem] is the ['problem'] field of the request, [None]
    when the key is missing. *)
Definition analyze_problem (problem : option str) : list record :=
  let problem_text := lower (get_or problem []) in
  match analyze_text problem_text with
  | Ok results => results
  | Raise e => [failure_record e]
  end.

(** The [exact_value] of a Snell answer and of a lens answer. *)
Definition exact_value_snell (answer : str) : result exact :=
  if contains (U "θ₂") answer then
    match search re_unsigned answer with
    | Some m => x <- py_float (group0 m) ;; Ok (ExFloat x)
    | None => Raise AttributeError
    end
  else Ok (ExStr answer).

Definition exact_value_lens (answer : str) : result exact :=
  match search re_signed answer with
  | Some m => x <- py_float (group0 m) ;; Ok (ExFloat x)
  | None => Ok ExNull
  end.

(** The [try] block of [calculate]. *)
Definition calculate_body (data : request) : result response :=
  let is_mode (name : str) :=
    match mode data with
    | Some m => str_eqb m name
    | None => false
    end in
  if is_mode (U "snell") then
    let n1 := get_or (q_n1 data) (VFloat 1) in
    let n2 := get_or (q_n2 data) (VFloat (15 / 10)) in
    let theta1 := get_or (q_theta1 data) (VFloat 0) in
    r <- calculate_snell n1 n2 theta1 ;;
    ev <- exact_value_snell (Answer r) ;;
    Ok (Solved (Answer r) (split 10%N (Steps r)) ev (animationData r))
  else if is_mode (U "lens") then
    let f := get_or (q_f data) VNone in
    let do_ := get_or (q_do data) VNone in
    let di := get_or (q_di data) VNone in
    r <- calculate_lens f do_ di ;;
    ev <- exact_value_lens (Answer r) ;;
    Ok (Solved (Answer r) (split 10%N (Steps r)) ev (animationData r))
  else Ok (Failed (U "Invalid mode")).

(** [/calculate]. *)
Definition calculate (data : request) : response :=
  match calculate_body data with
  | Ok resp => resp
  | Raise e => Failed (str_exc e)
  end.

End Program.

(** ** Vocabulary of the statements *)

(** The number a provided value stands for (0 for [None], which the
    statements never use). *)
Definition num (v : value) : R :=
  match v with
  | VNone => 0%R
  | VInt z => IZR z
  | VFloat r => r
  end.

(** A provided value is non-zero. *)
Definition nonzero (v : value) : Prop := is_none v = false -> num v <> 0%R.

(** The denominator of the branch that solves for the missing variable. *)
Definition lens_denominator (f do_ di : value) : R :=
  if is_none di then (1 / num f - 1 / num do_)%R
  else if is_none do_ then (1 / num f - 1 / num di)%R
  else (1 / num do_ + 1 / num di)%R.

(** How an input of the lens solver reads when only absence gives ["?"]. *)
Definition show_input (repr_float : R -> str) (v : value) : str :=
  if is_none v then U "?" else show repr_float v.

(** A ['Given'] string that lists the three values of the resolved triple,
    the solved one in the place of the missing one. *)
Definition given_lists_solved (repr_float : R -> str) (r : record) : Prop :=
  exists f' do' di',
    animationData r = Some (Lens f' do' di')
    /\ Given r = U "f = " ++ show repr_float f' ++ U ", do = "
                   ++ show repr_float do' ++ U ", di = "
                   ++ show repr_float di'.

(** The parameter extractor as the specification words it: a decimal
    number at the head of a text (digits, an optional point with trailing
    digits), with the text that follows it. *)
Definition read_number (s : str) : option (str * str) :=
  let (d1, r1) := span is_digit s in
  match d1 with
  | [] => None
  | _ =>
    match r1 with
    | c :: r2 =>
      if is_dot c then
        let (d2, r3) := span is_digit r2 in Some (d1 ++ c :: d2, r3)
      else Some (d1, r1)
    | [] => Some (d1, r1)
    end
  end.

Definition skip_blanks (s : str) : str := snd (span is_space s).

(** After the name: optional blanks, [=] or [:], optional blanks, a number. *)
Definition read_value (s : str) : option (str * str) :=
  match skip_blanks s with
  | c :: r => if is_sep c then read_number (skip_blanks r) else None
  | [] => None
  end.

(** One of the names at the head of the text, followed by a value. *)
Fixpoint read_assignment (names : list str) (s : str) : option (str * str) :=
  match names with
  | [] => None
  | n :: names' =>
    match match strip_prefix n s with
          | Some r => read_value r
          | None => None
          end with
    | Some v => Some v
    | None => read_assignment names' s
    end
  end.

(** The first occurrence in the text. *)
Fixpoint first_assignment (names : list str) (s : str) : option (str * str) :=
  match read_assignment names s with
  | Some v => Some v
  | None =>
    match s with
    | [] => None
    | _ :: s' => first_assignment names s'
    end
  end.

(** The first name, in the order of the alternation, after which the
    continuation succeeds. *)
Fixpoint first_name {A : Type} (names : list str) (s : str) (g : option str)
         (k : str -> option str -> option A) : option A :=
  match names with
  | [] => None
  | n :: names' =>
    match match strip_prefix n s with
          | Some r => k r g
          | None => None
          end with
    | Some a => Some a
    | None => first_name names' s g k
    end
  end.

(** The record of a match of an assignment pattern on [s]. *)
Definition assignment_match (s : str) (v : str * str) : match_obj :=
  {| group0 := taken s (snd v); group1 := Some (fst v) |}.

(** The number a decimal numeral denotes: its integer part plus its
    fractional digits over the matching power of ten. *)
Definition number_value (n : str) : R :=
  let (ip, rest) := span is_digit n in
  (IZR (Z.of_N (digits_value ip))
   + match rest with
     | [] => 0
     | _ :: fp =>
       IZR (Z.of_N (digits_value fp))
       / IZR (Z.of_N (10 ^ N.of_nat (length fp)))
     end)%R.

(** A field of [params] holds the number of the first occurrence, and is
    absent when there is none. *)
Definition found (names : list str) (text : str) (field : option R) : Prop :=
  field = option_map (fun v => number_value (fst v))
                     (first_assignment names text).

(** [x] rounded to [prec] decimals, ties to even. *)
Definition round_to (prec : nat) (x : R) : R :=
  (IZR (round_half_even (x * IZR (Z.of_N (10 ^ N.of_nat prec))))
   / IZR (Z.of_N (10 ^ N.of_nat prec)))%R.

(** The digits of a formatted number, without the sign. *)
Definition format_f_unsigned (prec : nat) (x : R) : str :=
  let scale := (10 ^ N.of_nat prec)%N in
  let k := Z.abs_N (round_half_even (x * IZR (Z.of_N scale))) in
  decimal (k / scale) ++ U "." ++ zero_pad prec (decimal (k mod scale)).

(** The characters [[\d.]] and [[\d.-]] accept. *)
Definition unsigned_char (c : char) : bool := is_digit c || is_dot c.
Definition signed_char (c : char) : bool :=
  is_digit c || is_dot c || is_minus c.

(** A text without a line break. *)
Definition one_line (s : str) : Prop :=
  forallb (fun c => negb (c =? 10)%N) s = true.

(** All three arguments of a solver call are numbers. *)
Definition numeric (a b c : value) : Prop :=
  is_none a = false /\ is_none b = false /\ is_none c = false.

(** A provided value that is zero. *)
Definition zero_given (v : value) : Prop := is_none v = false /\ num v = 0%R.

(** The name of the variable a lens call solves for. *)
Definition solved_name (f do_ di : value) : str :=
  if is_none di then U "di" else if is_none do_ then U "do" else U "f".

(** A slot of the resolved triple: the given value, or the solved one in
    the place of the missing variable. *)
Definition resolved (solved : R) (v : value) : value :=
  if is_none v then VFloat solved else v.

(** The record of the insufficient-data path. *)
Definition insufficient_record (repr_float : R -> str) (f do_ di : value)
  : record :=
  {| Detected := U "Lens Problem";
     Given := given_lens repr_float f do_ di;
     Formula := U "1/f = 1/do + 1/di";
     Steps := U "Error: Please provide exactly two of the three values";
     Answer := U "Insufficient data provided";
     animationData := None;
     error := None |}.

(** A field of [params] that holds no negative number. *)
Definition nonneg_field (field : option R) : Prop :=
  match field with
  | Some x => (0 <= x)%R
  | None => True
  end.

(** Sample requests of the structured mode. *)
Definition request_of (m : option str) (n1 n2 theta1 f do_ di : option value)
  : request :=
  {| mode := m; q_n1 := n1; q_n2 := n2; q_theta1 := theta1;
     q_f := f; q_do := do_; q_di := di |}.

Definition lens_10_30_request : request :=
  request_of (Some (U "lens")) None None None
             (Some (VInt 10)) (Some (VInt 30)) None.

Definition lens_f_only : request :=
  request_of (Some (U "lens")) None None None (Some (VInt 10)) None (Some VNone).

(** Stand-ins for the built-ins, to run the program on examples: lower
    case of ASCII letters, floats written with one decimal, a message per
    exception. *)
Definition ascii_lower (s : str) : str :=
  map (fun c => if (65 <=? c)%N && (c <=? 90)%N then (c + 32)%N else c) s.

Definition repr_one_decimal (x : R) : str := format_f 1 x.

Definition fault_name (e : fault) : str :=
  match e with
  | ZeroDivisionError => U "division by zero"
  | ValueError => U "math domain error"
  | TypeError => U "unsupported operand type(s)"
  | AttributeError => U "'NoneType' object has no attribute 'group'"
  end.

(** ** The binary64 reading of the lens solver and of the free-text mode

    The same code with a Python [float] read as an IEEE 754 binary64
    number ([spec_float] at precision 53 and maximal exponent 1024, rounding
    to nearest, ties to even): overflow to an infinity, NaN, signed zeros
    and the rounding of every operation are those of the interpreter.
    [\d] and [float] follow the Unicode database: every code point with a
    decimal value is a digit. *)

Module Binary64.

Definition float : Type := spec_float.
Definition prec : Z := 53.
Definition emax : Z := 1024.

(** An integer as an unrounded operand of a division. *)
Definition exact_int (z : Z) : float :=
  match z with
  | Z0 => S754_zero false
  | Zpos p => S754_finite false p 0
  | Zneg p => S754_finite true p 0
  end.

(** The float nearest to [n / d]: the true division of two [int]s, and the
    value of a decimal literal ([1.5] is [quotient 15 10], [1e-6] is
    [quotient 1 1000000]). *)
Definition quotient (n d : Z) : float :=
  SFdiv prec emax (exact_int n) (exact_int d).

Definition fadd (x y : float) : float := SFadd prec emax x y.
Definition fsub (x y : float) : float := SFsub prec emax x y.

(** [x == 0]. *)
Definition is_zero (x : float) : bool := SFeqb x (S754_zero false).

(** What a solver argument can be: [None], an [int] or a [float]. *)
Inductive value : Type :=
| VNone
| VInt (z : Z)
| VFloat (x : float).

Definition is_none (v : value) : bool :=
  match v with VNone => true | _ => false end.

(** Python's [x / y] on floats. *)
Definition fdiv (x y : float) : result float :=
  if is_zero y then Raise ZeroDivisionError else Ok (SFdiv prec emax x y).

(** [1.0]. *)
Definition one : float := quotient 1 1.

(** Python's [1 / v] on a solver argument. *)
Definition py_div_1 (v : value) : result float :=
  match v with
  | VNone => Raise TypeError
  | VInt z =>
    if (z =? 0)%Z then Raise ZeroDivisionError else Ok (quotient 1 z)
  | VFloat x => fdiv one x
  end.

(** Truth value of a solver argument, as [or] tests it. *)
Definition truthy (v : value) : bool :=
  match v with
  | VNone => false
  | VInt z => negb (z =? 0)%Z
  | VFloat x => negb (is_zero x)
  end.

(** [n / d] rounded to the nearest integer, ties to even ([0 <= n],
    [0 < d]). *)
Definition round_half_even (n d : Z) : Z :=
  let q := (n / d)%Z in
  let r := (n mod d)%Z in
  if (2 * r <? d)%Z then q
  else if (d <? 2 * r)%Z then (q + 1)%Z
  else if Z.even q then q else (q + 1)%Z.

(** The digits of [k / 10^digits] with [digits] decimals. *)
Definition fixed_point (digits : nat) (k : N) : str :=
  let scale := (10 ^ N.of_nat digits)%N in
  decimal (k / scale) ++ U "." ++ zero_pad digits (decimal (k mod scale)).

(** [format(x, '.<digits>f')], for [digits] at least 1: the exact value of
    [x] rounded to [digits] decimals, the sign of [x] kept. *)
Definition format_f (digits : nat) (x : float) : str :=
  match x with
  | S754_nan => U "nan"
  | S754_infinity s => (if s then U "-" else []) ++ U "inf"
  | S754_zero s => (if s then U "-" else []) ++ fixed_point digits 0
  | S754_finite s m e =>
    let n := (Zpos m * 10 ^ Z.of_nat digits)%Z in
    let k := if (0 <=? e)%Z then (n * 2 ^ e)%Z
             else round_half_even n (2 ^ (- e)) in
    (if s then U "-" else []) ++ fixed_point digits (Z.to_N k)
  end.

(** The [animationData] payload, one constructor per ['type'] tag. *)
Inductive animation : Type :=
| Tir (n1 n2 theta1 : value) (critical_angle : float)
| Refraction (n1 n2 theta1 : value) (theta2 : float)
| Lens (f do_ di : value).

Record record : Type := {
  Detected : str;
  Given : str;
  Formula : str;
  Steps : str;
  Answer : str;
  animationData : option animation;
  error : option str
}.

Record params : Type := {
  p_n1 : option float;
  p_n2 : option float;
  p_theta1 : option float;
  p_f : option float;
  p_do : option float;
  p_di : option float
}.

Section Program.

(** [str.lower], [repr] of a float, [str] of an exception. *)
Variable lower : str -> str.
Variable repr_float : float -> str.
Variable str_exc : fault -> str.

(** The decimal value of a code point beyond ASCII that has one (the
    Unicode database's decimal digits of other scripts). *)
Variable other_decimal : char -> option N.

(** The Snell solver: its sine and arcsine are the platform's, so it is a
    parameter of this reading. *)
Variable calculate_snell : value -> value -> value -> result record.

(** The decimal value of a code point, if it is a decimal digit. *)
Definition to_decimal (c : char) : option N :=
  if (c <? 128)%N then
    if (48 <=? c)%N && (c <=? 57)%N then Some (c - 48)%N else None
  else other_decimal c.

(** [\d]. *)
Definition is_decimal (c : char) : bool :=
  match to_decimal c with Some _ => true | None => false end.

(** Value of a string of decimal digits. *)
Definition digits_value (s : str) : N :=
  fold_left (fun acc c => (acc * 10 + get_or (to_decimal c) 0)%N) s 0%N.

(** The float nearest to [n / 10^k], with the sign asked for. *)
Definition decimal_float (negative : bool) (n : N) (k : nat) : float :=
  let x := quotient (Z.of_N n) (10 ^ Z.of_nat k) in
  if negative then SFopp x else x.

(** [float(s)] for the strings the program's patterns can capture: an
    optional sign, digits, at most one point, at least one digit.  (The
    exponent, [inf]/[nan], underscore and surrounding-blank forms that
    [float] also reads cannot come out of those patterns.) *)
Definition py_float (s : str) : result float :=
  let signed :=
    match s with
    | c :: t => if is_minus c then (true, t)
                else if (c =? 43)%N then (false, t) else (false, s)
    | [] => (false, s)
    end in
  let (ip, rest) := span is_decimal (snd signed) in
  match rest with
  | [] =>
    match ip with
    | [] => Raise ValueError
    | _ => Ok (decimal_float (fst signed) (digits_value ip) 0)
    end
  | c :: fp =>
    if is_dot c && forallb is_decimal fp
       && negb (Nat.eqb (length ip + length fp) 0)
    then Ok (decimal_float (fst signed) (digits_value (ip ++ fp)) (length fp))
    else Raise ValueError
  end.

(** The patterns of the parameter extractor. *)
Definition number_group : regex :=
  Grp (Seq (plus is_decimal) (Seq (Opt (Chr 46%N)) (Star is_decimal))).

Definition assignment (names : list str) : regex :=
  Seq (one_of names)
      (Seq (Star is_space) (Seq (Cls is_sep) (Seq (Star is_space) number_group))).

Definition re_n1 : regex := assignment [U "n1"].
Definition re_n2 : regex := assignment [U "n2"].
Definition re_theta1 : regex := assignment [U "theta1"; U "θ1"; U "angle"].
Definition re_f : regex := assignment [U "f"].
Definition re_do : regex := assignment [U "do"].
Definition re_di : regex := assignment [U "di"].

(** [float(m.group(1))] when the search found a match [m]. *)
Definition float_group1 (m : option match_obj) : result (option float) :=
  match m with
  | None => Ok None
  | Some mo =>
    match group1 mo with
    | Some g => x <- py_float g ;; Ok (Some x)
    | None => Raise TypeError
    end
  end.

(** [f"{v}"]. *)
Definition show (v : value) : str :=
  match v with
  | VNone => U "None"
  | VInt z => repr_int z
  | VFloat x => repr_float x
  end.

(** [f"{v or '?'}"]. *)
Definition show_or_unknown (v : value) : str :=
  if truthy v then show v else U "?".

Definition given_lens (f do_ di : value) : str :=
  U "f = " ++ show_or_unknown f ++ U ", do = " ++ show_or_unknown do_
    ++ U ", di = " ++ show_or_unknown di.

(** [sum(1 for val in [f, do, di] if val is not None)]. *)
Definition provided (f do_ di : value) : nat :=
  length (filter (fun v => negb (is_none v)) [f; do_; di]).

(** The record built by the final [return] of [calculate_lens]. *)
Definition lens_record (f do_ di : value) (find : str) (steps : list str)
           (result_value : float) (animation_data : animation) : record :=
  {| Detected := U "Lens Problem";
     Given := given_lens f do_ di;
     Formula := U "Thin Lens Equation: 1/f = 1/do + 1/di";
     Steps := join newline steps;
     Answer := find ++ U " = " ++ format_f 6 result_value ++ U " cm";
     animationData := Some animation_data;
     error := None |}.

Definition calculate_lens (f do_ di : value) : result record :=
  if negb (Nat.eqb (provided f do_ di) 2) then
    Ok {| Detected := U "Lens Problem";
          Given := given_lens f do_ di;
          Formula := U "1/f = 1/do + 1/di";
          Steps := U "Error: Please provide exactly two of the three values";
          Answer := U "Insufficient data provided";
          animationData := None;
          error := None |}
  else if negb (is_none f) && negb (is_none do_) && is_none di then
    rf <- py_div_1 f ;;
    rdo <- py_div_1 do_ ;;
    di_calc <- fdiv one (fsub rf rdo) ;;
    let steps :=
      [ U "Step 1: 1/di = 1/f - 1/do = 1/" ++ show f ++ U " - 1/"
          ++ show do_;
        U "Step 2: 1/di = " ++ format_f 6 rf ++ U " - " ++ format_f 6 rdo
          ++ U " = " ++ format_f 6 (fsub rf rdo);
        U "Step 3: di = 1 / " ++ format_f 6 (fsub rf rdo) ++ U " = "
          ++ format_f 6 di_calc ++ U " cm" ] in
    Ok (lens_record f do_ di (U "di") steps di_calc
          (Lens f do_ (VFloat di_calc)))
  else if negb (is_none f) && negb (is_none di) && is_none do_ then
    rf <- py_div_1 f ;;
    rdi <- py_div_1 di ;;
    do_calc <- fdiv one (fsub rf rdi) ;;
    let steps :=
      [ U "Step 1: 1/do = 1/f - 1/di = 1/" ++ show f ++ U " - 1/"
          ++ show di;
        U "Step 2: 1/do = " ++ format_f 6 rf ++ U " - " ++ format_f 6 rdi
          ++ U " = " ++ format_f 6 (fsub rf rdi);
        U "Step 3: do = 1 / " ++ format_f 6 (fsub rf rdi) ++ U " = "
          ++ format_f 6 do_calc ++ U " cm" ] in
    Ok (lens_record f do_ di (U "do") steps do_calc
          (Lens f (VFloat do_calc) di))
  else if negb (is_none do_) && negb (is_none di) && is_none f then
    rdo <- py_div_1 do_ ;;
    rdi <- py_div_1 di ;;
    f_calc <- fdiv one (fadd rdo rdi) ;;
    let steps :=
      [ U "Step 1: 1/f = 1/do + 1/di = 1/" ++ show do_ ++ U " + 1/"
          ++ show di;
        U "Step 2: 1/f = " ++ format_f 6 rdo ++ U " + " ++ format_f 6 rdi
          ++ U " = " ++ format_f 6 (fadd rdo rdi);
        U "Step 3: f = 1 / " ++ format_f 6 (fadd rdo rdi) ++ U " = "
          ++ format_f 6 f_calc ++ U " cm" ] in
    Ok (lens_record f do_ di (U "f") steps f_calc
          (Lens (VFloat f_calc) do_ di))
  else
    (* no branch taken: [result_value] is still [None] when formatted *)
    Raise TypeError.

(** The record the [except] clause of [/analyze] answers with. *)
Definition failure_record (e : fault) : record :=
  {| Detected := U "Error";
     Given := U "Problem parsing failed";
     Formula := U "N/A";
     Steps := U "Error: " ++ str_exc e;
     Answer := U "Calculation failed";
     animationData := None;
     error := Some (str_exc e) |}.

Definition unrecognized_record : record :=
  {| Detected := U "Optical Problem";
     Given := U "Could not identify specific problem type";
     Formula := U "Please include keywords like: refraction, lens, focal, angle";
     Steps := U "Try rephrasing with specific optical terms";
     Answer := U "Unable to analyze - please provide more context";
     animationData := None;
     error := None |}.

(** The parameter extractor: the six searches of [analyze_problem] and the
    conversions of what they captured. *)
Definition extract (problem_text : str) : result params :=
  n1 <- float_group1 (search re_n1 problem_text) ;;
  n2 <- float_group1 (search re_n2 problem_text) ;;
  theta1 <- float_group1 (search re_theta1 problem_text) ;;
  f <- float_group1 (search re_f problem_text) ;;
  do_ <- float_group1 (search re_do problem_text) ;;
  di <- float_group1 (search re_di problem_text) ;;
  Ok {| p_n1 := n1; p_n2 := n2; p_theta1 := theta1;
        p_f := f; p_do := do_; p_di := di |}.

(** [params.get(key, default)] and [params.get(key)]. *)
Definition param_or (x : option float) (default : float) : value :=
  VFloat (get_or x default).

Definition param (x : option float) : value :=
  match x with
  | Some r => VFloat r
  | None => VNone
  end.

(** The [try] block of [analyze_problem], from the lower-cased text on. *)
Definition analyze_text (problem_text : str) : result (list record) :=
  ps <- extract problem_text ;;
  if any_in refraction_words problem_text then
    let n1 := param_or (p_n1 ps) one in
    let n2 := param_or (p_n2 ps) (quotient 15 10) in
    let theta1 := param_or (p_theta1 ps) (quotient 30 1) in
    r <- calculate_snell n1 n2 theta1 ;;
    Ok [r]
  else if any_in lens_words problem_text then
    let f := param (p_f ps) in
    let do_ := param (p_do ps) in
    let di := param (p_di ps) in
    r <- calculate_lens f do_ di ;;
    Ok [r]
  else Ok [unrecognized_record].

(** [/analyze]: [problem] is the ['problem'] field of the request, [None]
    when the key is missing. *)
Definition analyze_problem (problem : option str) : list record :=
  let problem_text := lower (get_or problem []) in
  match analyze_text problem_text with
  | Ok results => results
  | Raise e => [failure_record e]
  end.

End Program.

(** *** Vocabulary of the statements about this reading *)

(** The float of [1 / f - 1 / do], [1 / f - 1 / di] or [1 / do + 1 / di]
    that the branch solving for the missing variable divides by. *)
Definition lens_denominator (f do_ di : value) : result float :=
  if is_none di then
    rf <- py_div_1 f ;; rdo <- py_div_1 do_ ;; Ok (fsub rf rdo)
  else if is_none do_ then
    rf <- py_div_1 f ;; rdi <- py_div_1 di ;; Ok (fsub rf rdi)
  else
    rdo <- py_div_1 do_ ;; rdi <- py_div_1 di ;; Ok (fadd rdo rdi).

(** The value a call with two provided values solves for. *)
Definition lens_solve (f do_ di : value) : result float :=
  d <- lens_denominator f do_ di ;; fdiv one d.

(** The name of the variable a lens call solves for. *)
Definition solved_name (f do_ di : value) : str :=
  if is_none di then U "di" else if is_none do_ then U "do" else U "f".

(** A slot of the resolved triple: the given value, or the solved one in
    the place of the missing variable. *)
Definition resolved (solved : float) (v : value) : value :=
  if is_none v then VFloat solved else v.

(** A provided value that compares equal to zero. *)
Definition zero_given (v : value) : bool :=
  match v with
  | VNone => false
  | VInt z => (z =? 0)%Z
  | VFloat x => is_zero x
  end.

(** A float that is a number (a zero or a finite value). *)
Definition is_finite (x : float) : bool :=
  match x with
  | S754_zero _ | S754_finite _ _ _ => true
  | _ => false
  end.











Section Scanner.

Variable other_decimal : char -> option N.

(** The parameter extractor as the specification words it: a decimal
    number at the head of a text (digits, an optional point with trailing
    digits), with the text that follows it. *)
Definition read_number (s : str) : option (str * str) :=
  let (d1, r1) := span (is_decimal other_decimal) s in
  match d1 with
  | [] => None
  | _ =>
    match r1 with
    | c :: r2 =>
      if is_dot c then
        let (d2, r3) := span (is_decimal other_decimal) r2 in
        Some (d1 ++ c :: d2, r3)
      else Some (d1, r1)
    | [] => Some (d1, r1)
    end
  end.

(** After the name: optional blanks, [=] or [:], optional blanks, a number. *)
Definition read_value (s : str) : option (str * str) :=
  match skip_blanks s with
  | c :: r => if is_sep c then read_number (skip_blanks r) else None
  | [] => None
  end.

(** One of the names at the head of the text, followed by a value. *)
Fixpoint read_assignment (names : list str) (s : str) : option (str * str) :=
  match names with
  | [] => None
  | n :: names' =>
    match match strip_prefix n s with
          | Some r => read_value r
          | None => None
          end with
    | Some v => Some v
    | None => read_assignment names' s
    end
  end.

(** The first occurrence in the text. *)
Fixpoint first_assignment (names : list str) (s : str) : option (str * str) :=
  match read_assignment names s with
  | Some v => Some v
  | None =>
    match s with
    | [] => None
    | _ :: s' => first_assignment names s'
    end
  end.

(** The float nearest to the number a decimal numeral writes. *)
Definition numeral_float (n : str) : float :=
  let (ip, rest) := span (is_decimal other_decimal) n in
  match rest with
  | [] => decimal_float false (digits_value other_decimal ip) 0
  | _ :: fp =>
    decimal_float false (digits_value other_decimal (ip ++ fp)) (length fp)
  end.

(** A field of [params] holds the number of the first occurrence, and is
    absent when there is none. *)
Definition found (names : list str) (text : str) (field : option float)
  : Prop :=
  field = option_map (fun v => numeral_float (fst v))
                     (first_assignment names text).

End Scanner.

(** Stand-ins for the built-ins, to run this reading on examples: floats
    written with six decimals, and the decimal digits of the Arabic-Indic
    block as the only digits beyond ASCII. *)
Definition repr_six_decimals (x : float) : str := format_f 6 x.

Definition arabic_indic (c : char) : option N :=
  if (1632 <=? c)%N && (c <=? 1641)%N then Some (c - 1632)%N else None.

(** A Snell solver for texts that do not reach it. *)
Definition no_snell (n1 n2 theta1 : value) : result record :=
  Raise ValueError.

End Binary64.

(** * Properties *)

(** ** Arithmetic of the solvers *)

Lemma Rabs_sin_le_1 (x : R) : (Rabs (sin x) <= 1)%R.
Proof. apply Rabs_le. apply SIN_bound. Qed.

Lemma fdiv_ok (a b : R) : b <> 0%R -> fdiv a b = Ok (a / b)%R.
Proof. intros H. unfold fdiv. destruct (Req_dec_T b 0); [contradiction | reflexivity]. Qed.

Lemma fdiv_zero (a : R) : fdiv a 0 = Raise ZeroDivisionError.
Proof. unfold fdiv. destruct (Req_dec_T 0 0); [reflexivity | congruence]. Qed.

Lemma py_asin_ok (x : R) : (Rabs x <= 1)%R -> py_asin x = Ok (asin x).
Proof. intros H. unfold py_asin. destruct (Rle_dec (Rabs x) 1); [reflexivity | contradiction]. Qed.

(** When the product of a ratio with a sine exceeds 1 in absolute value,
    the ratio itself does, and the inverse ratio lies strictly inside the
    domain of the arcsine. *)
Lemma tir_ratio (a b s : R) :
  b <> 0%R -> (Rabs s <= 1)%R -> (1 < Rabs (a / b * s))%R ->
  a <> 0%R /\ (Rabs (b / a) < 1)%R.
Proof.
  intros Hb Hs H.
  rewrite Rabs_mult in H.
  assert (Hq : (1 < Rabs (a / b))%R).
  { pose proof (Rabs_pos (a / b)) as Hp. pose proof (Rabs_pos s). nra. }
  assert (Ha : a <> 0%R).
  { intros ->. unfold Rdiv in Hq. rewrite Rmult_0_l, Rabs_R0 in Hq. lra. }
  split; [exact Ha|].
  unfold Rdiv in *. rewrite Rabs_mult in *.
  rewrite Rabs_inv in *.
  assert (0 < Rabs a)%R by (apply Rabs_pos_lt; exact Ha).
  assert (0 < Rabs b)%R by (apply Rabs_pos_lt; exact Hb).
  assert (Hlt : (Rabs b < Rabs a)%R).
  { apply (Rmult_lt_compat_r (Rabs b)) in Hq; [|assumption].
    rewrite Rmult_assoc, Rinv_l in Hq by lra. lra. }
  apply (Rmult_lt_reg_r (Rabs a)); [assumption|].
  rewrite Rmult_assoc, Rinv_l by lra. lra.
Qed.

(** ** Snell's law *)

Section SnellProperties.

Variable repr_float : R -> str.

(** The record of the normal-refraction branch. *)
Lemma calculate_snell_refraction (n1 n2 theta1 : value) (a b t : R) :
  real_of n1 = Ok a -> real_of n2 = Ok b -> real_of theta1 = Ok t ->
  b <> 0%R ->
  (Rabs (a / b * sin (radians t)) <= 1)%R ->
  exists r,
    calculate_snell repr_float n1 n2 theta1 = Ok r
    /\ Detected r = U "Refraction Problem"
    /\ Answer r = U "θ₂ = "
                    ++ format_f 6 (degrees (asin (a / b * sin (radians t))))
                    ++ U "°"
    /\ animationData r
       = Some (Refraction n1 n2 theta1
                 (degrees (asin (a / b * sin (radians t))))).
Proof.
  intros Hn1 Hn2 Ht Hb Hdom.
  unfold calculate_snell, py_div.
  rewrite Ht, Hn1, Hn2. cbn [bind].
  rewrite (fdiv_ok a b Hb). cbn [bind].
  destruct (Rlt_dec 1 (Rabs (a / b * sin (radians t)))) as [Hgt | _]; [lra|].
  rewrite (py_asin_ok _ Hdom). cbn [bind].
  eexists. split; [reflexivity|]. cbn [Detected Answer animationData].
  repeat split.
Qed.

(** C10. Whenever [calculate_snell] takes the total-internal-reflection
    branch, |n2/n1| < 1 (and n1 is not zero), so the argument of the
    arcsine of the critical angle is inside its domain, [math.asin] raises
    nothing there, and the branch returns a record. *)
Theorem tir_branch_total (n1 n2 theta1 : value) (a b t : R) :
  real_of n1 = Ok a -> real_of n2 = Ok b -> real_of theta1 = Ok t ->
  b <> 0%R ->
  (1 < Rabs (a / b * sin (radians t)))%R ->
  a <> 0%R
  /\ (Rabs (b / a) < 1)%R
  /\ py_div n2 n1 = Ok (b / a)%R
  /\ py_asin (b / a) = Ok (asin (b / a))
  /\ exists r, calculate_snell repr_float n1 n2 theta1 = Ok r
               /\ animationData r
                  = Some (Tir n1 n2 theta1 (degrees (asin (b / a)))).
Proof.
  intros Hn1 Hn2 Ht Hb Htir.
  destruct (tir_ratio a b _ Hb (Rabs_sin_le_1 (radians t)) Htir) as [Ha Hinv].
  split; [exact Ha|]. split; [exact Hinv|].
  assert (Hdiv : py_div n2 n1 = Ok (b / a)%R).
  { unfold py_div. rewrite Hn2, Hn1. cbn [bind]. apply fdiv_ok, Ha. }
  assert (Hasin : py_asin (b / a) = Ok (asin (b / a))).
  { apply py_asin_ok. lra. }
  split; [exact Hdiv|]. split; [exact Hasin|].
  unfold calculate_snell.
  rewrite Ht. cbn [bind].
  assert (Hq : py_div n1 n2 = Ok (a / b)%R).
  { unfold py_div. rewrite Hn1, Hn2. cbn [bind]. apply fdiv_ok, Hb. }
  rewrite Hq. cbn [bind].
  destruct (Rlt_dec 1 (Rabs (a / b * sin (radians t)))) as [_ | Hn]; [|lra].
  rewrite Hdiv. cbn [bind]. rewrite Hasin. cbn [bind].
  eexists. split; reflexivity.
Qed.

End SnellProperties.

(** ** The thin-lens solver *)

Lemma py_div_one (v : value) :
  is_none v = false -> py_div (VInt 1) v = fdiv 1 (num v).
Proof. destruct v; intros H; try discriminate H; reflexivity. Qed.

Lemma py_div_one_ok (v : value) :
  is_none v = false -> num v <> 0%R -> py_div (VInt 1) v = Ok (1 / num v)%R.
Proof. intros Hn Hz. rewrite py_div_one by exact Hn. apply fdiv_ok, Hz. Qed.

Lemma py_div_one_inv (v : value) (x : R) :
  py_div (VInt 1) v = Ok x -> is_none v = false /\ num v <> 0%R /\ x = (1 / num v)%R.
Proof.
  destruct v as [| z | r]; [discriminate | |];
    rewrite py_div_one by reflexivity; unfold fdiv; cbn [num];
    [destruct (Req_dec_T (IZR z) 0) | destruct (Req_dec_T r 0)];
    try discriminate; intros [= <-]; auto.
Qed.

Lemma truthy_nonzero (v : value) :
  is_none v = false -> num v <> 0%R -> truthy v = true.
Proof.
  destruct v as [| z | r]; simpl; intros Hn Hz; try discriminate.
  - destruct (Z.eqb_spec z 0) as [-> | _]; [contradiction Hz|]; reflexivity.
  - destruct (Req_dec_T r 0); [contradiction | reflexivity].
Qed.

(** The three cases of "exactly two provided". *)
Lemma provided_two (f do_ di : value) :
  provided f do_ di = 2%nat ->
  (is_none f = false /\ is_none do_ = false /\ di = VNone)
  \/ (is_none f = false /\ do_ = VNone /\ is_none di = false)
  \/ (f = VNone /\ is_none do_ = false /\ is_none di = false).
Proof.
  destruct f, do_, di; cbv [provided filter is_none negb length];
    intros H; try discriminate H; auto 10.
Qed.

Section LensProperties.

Variable repr_float : R -> str.

(** The three solving branches, after the tests on [None]. *)
Lemma lens_solve_di (f do_ : value) :
  is_none f = false -> is_none do_ = false ->
  calculate_lens repr_float f do_ VNone =
  (rf <- py_div (VInt 1) f ;;
   rdo <- py_div (VInt 1) do_ ;;
   di_calc <- fdiv 1 (rf - rdo) ;;
   Ok (lens_record repr_float f do_ VNone (U "di")
         [ U "Step 1: 1/di = 1/f - 1/do = 1/" ++ show repr_float f
             ++ U " - 1/" ++ show repr_float do_;
           U "Step 2: 1/di = " ++ format_f 6 rf ++ U " - " ++ format_f 6 rdo
             ++ U " = " ++ format_f 6 (rf - rdo);
           U "Step 3: di = 1 / " ++ format_f 6 (rf - rdo) ++ U " = "
             ++ format_f 6 di_calc ++ U " cm" ]
         di_calc (Lens f do_ (VFloat di_calc)))).
Proof. destruct f, do_; try discriminate; reflexivity. Qed.

Lemma lens_solve_do (f di : value) :
  is_none f = false -> is_none di = false ->
  calculate_lens repr_float f VNone di =
  (rf <- py_div (VInt 1) f ;;
   rdi <- py_div (VInt 1) di ;;
   do_calc <- fdiv 1 (rf - rdi) ;;
   Ok (lens_record repr_float f VNone di (U "do")
         [ U "Step 1: 1/do = 1/f - 1/di = 1/" ++ show repr_float f
             ++ U " - 1/" ++ show repr_float di;
           U "Step 2: 1/do = " ++ format_f 6 rf ++ U " - " ++ format_f 6 rdi
             ++ U " = " ++ format_f 6 (rf - rdi);
           U "Step 3: do = 1 / " ++ format_f 6 (rf - rdi) ++ U " = "
             ++ format_f 6 do_calc ++ U " cm" ]
         do_calc (Lens f (VFloat do_calc) di))).
Proof. destruct f, di; try discriminate; reflexivity. Qed.

Lemma lens_solve_f (do_ di : value) :
  is_none do_ = false -> is_none di = false ->
  calculate_lens repr_float VNone do_ di =
  (rdo <- py_div (VInt 1) do_ ;;
   rdi <- py_div (VInt 1) di ;;
   f_calc <- fdiv 1 (rdo + rdi) ;;
   Ok (lens_record repr_float VNone do_ di (U "f")
         [ U "Step 1: 1/f = 1/do + 1/di = 1/" ++ show repr_float do_
             ++ U " + 1/" ++ show repr_float di;
           U "Step 2: 1/f = " ++ format_f 6 rdo ++ U " + " ++ format_f 6 rdi
             ++ U " = " ++ format_f 6 (rdo + rdi);
           U "Step 3: f = 1 / " ++ format_f 6 (rdo + rdi) ++ U " = "
             ++ format_f 6 f_calc ++ U " cm" ]
         f_calc (Lens (VFloat f_calc) do_ di))).
Proof. destruct do_, di; try discriminate; reflexivity. Qed.

(** C4. With 0, 1 or 3 of f, do, di provided, [calculate_lens] raises
    nothing and returns the insufficient-data record: detected
    "Lens Problem", the single step line
    "Error: Please provide exactly two of the three values" and the answer
    "Insufficient data provided". *)
Theorem lens_insufficient_data (f do_ di : value) :
  provided f do_ di = 0%nat \/ provided f do_ di = 1%nat
  \/ provided f do_ di = 3%nat ->
  calculate_lens repr_float f do_ di =
  Ok {| Detected := U "Lens Problem";
        Given := given_lens repr_float f do_ di;
        Formula := U "1/f = 1/do + 1/di";
        Steps := U "Error: Please provide exactly two of the three values";
        Answer := U "Insufficient data provided";
        animationData := None;
        error := None |}.
Proof.
  intros H. unfold calculate_lens.
  destruct (Nat.eqb_spec (provided f do_ di) 2) as [E | _]; [lia | reflexivity].
Qed.

End LensProperties.

(** ** The patterns of the extractor and their reading as a scanner *)

Lemma span_app (p : char -> bool) (s : str) :
  s = fst (span p s) ++ snd (span p s).
Proof.
  induction s as [| c s IH]; simpl; [reflexivity|].
  destruct (p c); [|reflexivity].
  destruct (span p s) as [u v]. simpl in *. now rewrite IH at 1.
Qed.

Lemma span_cons_true (p : char -> bool) (c : char) (s : str) :
  p c = true ->
  span p (c :: s) = (c :: fst (span p s), snd (span p s)).
Proof. intros H. simpl. rewrite H. now destruct (span p s). Qed.

Lemma span_cons_false (p : char -> bool) (c : char) (s : str) :
  p c = false -> span p (c :: s) = ([], c :: s).
Proof. intros H. simpl. now rewrite H. Qed.

Lemma span_fst_all (p : char -> bool) (s : str) :
  forallb p (fst (span p s)) = true.
Proof.
  induction s as [| c s IH]; simpl; [reflexivity|].
  destruct (p c) eqn:E; [|reflexivity].
  destruct (span p s) as [u v]. simpl in *. now rewrite E.
Qed.

(** What remains after the longest prefix does not start with a [p]. *)
Lemma span_snd_head (p : char -> bool) (s : str) (c : char) (t : str) :
  snd (span p s) = c :: t -> p c = false.
Proof.
  induction s as [| x s IH]; simpl; [discriminate|].
  destruct (p x) eqn:E.
  - destruct (span p s) as [u v]. simpl in *. exact IH.
  - simpl. now intros [= <- _].
Qed.

(** The longest prefix of [u ++ v] is [u] when [u] is made of [p]s and [v]
    does not start with one. *)
Lemma span_all_app (p : char -> bool) (u v : str) :
  forallb p u = true ->
  match v with [] => True | c :: _ => p c = false end ->
  span p (u ++ v) = (u, v).
Proof.
  intros Hu Hv. induction u as [| x u IH]; simpl.
  - destruct v as [| c t]; [reflexivity|]. simpl. now rewrite Hv.
  - simpl in Hu. apply andb_true_iff in Hu as [Hx Hu].
    rewrite Hx, (IH Hu). reflexivity.
Qed.

Lemma taken_app (u v : str) : taken (u ++ v) v = u.
Proof.
  unfold taken. rewrite length_app.
  replace (length u + length v - length v)%nat with (length u) by lia.
  rewrite firstn_app, firstn_all, Nat.sub_diag. simpl. apply app_nil_r.
Qed.

Section MatcherLemmas.

Variable A : Type.

(** Greedy repetition before a continuation that refuses a text starting
    with a repeated character: no backtracking can help, the continuation
    runs after the longest prefix. *)
Lemma star_refusing (p : char -> bool) (k : str -> option A) (s : str) :
  (forall c t, p c = true -> k (c :: t) = None) ->
  star p s k = k (snd (span p s)).
Proof.
  intros Hk. induction s as [| c s IH]; simpl; [reflexivity|].
  destruct (p c) eqn:E; [|reflexivity].
  rewrite IH. destruct (span p s) as [u v]. simpl.
  destruct (k v); [reflexivity|]. apply Hk, E.
Qed.

(** Greedy repetition before a continuation that always succeeds. *)
Lemma star_accepting (p : char -> bool) (k : str -> option A) (s : str) :
  (forall t, k t <> None) ->
  star p s k = k (snd (span p s)).
Proof.
  intros Hk. induction s as [| c s IH]; simpl; [reflexivity|].
  destruct (p c) eqn:E; [|reflexivity].
  rewrite IH. destruct (span p s) as [u v]. simpl.
  destruct (k v) eqn:Ek; [reflexivity|]. now apply Hk in Ek.
Qed.

Lemma run_lit (w s : str) (g : option str)
      (k : str -> option str -> option A) :
  run (lit w) s g k =
  match strip_prefix w s with
  | Some r => k r g
  | None => None
  end.
Proof.
  revert s. induction w as [| a w IH]; intros s; simpl; [reflexivity|].
  destruct s as [| b s]; [reflexivity|].
  rewrite (N.eqb_sym a b). destruct (b =? a)%N; [apply IH | reflexivity].
Qed.

Lemma run_one_of (names : list str) (s : str) (g : option str)
      (k : str -> option str -> option A) :
  run (one_of names) s g k = first_name names s g k.
Proof.
  induction names as [| n names IH]; simpl.
  - destruct s; reflexivity.
  - destruct names as [| n' names'].
    + rewrite run_lit. simpl.
      destruct (strip_prefix n s); [|reflexivity]. now destruct (k s0 g).
    + cbn [run]. rewrite run_lit, IH. reflexivity.
Qed.

(** The captured number: digits, then a point if there is one, then
    digits, each repetition the longest possible. *)
Lemma run_number_group (s : str) (g : option str)
      (k : str -> option str -> option A) :
  (forall t h, k t h <> None) ->
  run number_group s g k =
  match read_number s with
  | Some (n, rest) => k rest (Some n)
  | None => None
  end.
Proof.
  intros Hk. unfold number_group, plus, read_number. cbn [run].
  destruct s as [| x s1]; [reflexivity|].
  destruct (is_digit x) eqn:Ex.
  2:{ rewrite span_cons_false by exact Ex. reflexivity. }
  rewrite span_cons_true by exact Ex.
  assert (Hstar : forall t,
             star is_digit t (fun s' => k s' (Some (taken (x :: s1) s')))
             = k (snd (span is_digit t))
                 (Some (taken (x :: s1) (snd (span is_digit t))))).
  { intros t.
    apply (star_accepting is_digit
             (fun s' => k s' (Some (taken (x :: s1) s')))).
    intros; apply Hk. }
  rewrite star_accepting.
  2:{ intros [| c r2].
      - rewrite Hstar. apply Hk.
      - destruct (c =? 46)%N; rewrite Hstar.
        + destruct (k _ _) eqn:E; [discriminate | now apply Hk in E].
        + apply Hk. }
  pose proof (span_app is_digit s1) as Happ.
  pose proof (span_snd_head is_digit s1) as Hhead.
  destruct (span is_digit s1) as [d1 r1]. cbn [fst snd] in *.
  destruct r1 as [| c r2].
  - rewrite Hstar. cbn [span snd]. subst s1. rewrite app_nil_r.
    replace (taken (x :: d1) []) with (x :: d1); [reflexivity|].
    rewrite <- (app_nil_r (x :: d1)) at 2. now rewrite taken_app.
  - unfold is_dot. destruct (c =? 46)%N eqn:Ec.
    + rewrite Hstar.
      pose proof (span_app is_digit r2) as Happ2.
      destruct (span is_digit r2) as [d2 r3]. cbn [fst snd] in *.
      destruct (k r3 (Some (taken (x :: s1) r3))) eqn:E;
        [|now apply Hk in E].
      rewrite <- E. f_equal. f_equal. subst s1 r2.
      change (x :: d1 ++ c :: d2 ++ r3) with ((x :: d1) ++ (c :: d2) ++ r3).
      rewrite app_assoc. rewrite taken_app. reflexivity.
    + rewrite Hstar.
      rewrite span_cons_false by (apply (Hhead c r2); reflexivity).
      cbn [snd]. f_equal. f_equal. subst s1.
      change (x :: d1 ++ c :: r2) with ((x :: d1) ++ c :: r2).
      now rewrite taken_app.
Qed.

End MatcherLemmas.

Lemma space_not_sep (c : char) : is_space c = true -> is_sep c = false.
Proof.
  intros H. unfold is_sep.
  destruct (N.eqb_spec c 61) as [-> | _]; [discriminate H|].
  destruct (N.eqb_spec c 58) as [-> | _]; [discriminate H | reflexivity].
Qed.

Lemma digit_range (c : char) : is_digit c = true <-> (48 <= c <= 57)%N.
Proof.
  unfold is_digit. rewrite andb_true_iff, !N.leb_le. reflexivity.
Qed.

Lemma space_not_digit (c : char) : is_space c = true -> is_digit c = false.
Proof.
  intros H. destruct (is_digit c) eqn:E; [|reflexivity].
  apply digit_range in E. unfold is_space in H.
  repeat rewrite orb_true_iff in H. repeat rewrite andb_true_iff in H.
  repeat rewrite N.leb_le in H. repeat rewrite N.eqb_eq in H. lia.
Qed.

Lemma digit_not_sign (c : char) :
  is_digit c = true -> is_minus c = false /\ (c =? 43)%N = false
                       /\ is_dot c = false.
Proof.
  intros H. apply digit_range in H. unfold is_minus, is_dot.
  repeat split; apply N.eqb_neq; lia.
Qed.

(** The value part of a pattern: blanks, [=] or [:], blanks, the number. *)
Lemma run_value (A : Type) (s : str) (g : option str)
      (k : str -> option str -> option A) :
  (forall t h, k t h <> None) ->
  run (Seq (Star is_space)
           (Seq (Cls is_sep) (Seq (Star is_space) number_group))) s g k =
  match read_value s with
  | Some (n, rest) => k rest (Some n)
  | None => None
  end.
Proof.
  intros Hk. cbn [run]. unfold read_value, skip_blanks.
  rewrite star_refusing.
  2:{ intros c t Hc. now rewrite (space_not_sep c Hc). }
  destruct (snd (span is_space s)) as [| c r]; [reflexivity|].
  destruct (is_sep c); [|reflexivity].
  rewrite star_refusing.
  - apply run_number_group, Hk.
  - intros x t Hx. rewrite run_number_group by exact Hk.
    unfold read_number.
    now rewrite (span_cons_false is_digit x t (space_not_digit x Hx)).
Qed.

Lemma first_name_read (s : str) (names : list str) :
  first_name names s None
    (fun r g =>
       run (Seq (Star is_space)
                (Seq (Cls is_sep) (Seq (Star is_space) number_group))) r g
           (fun s' g' => Some {| group0 := taken s s'; group1 := g' |}))
  = option_map (assignment_match s) (read_assignment names s).
Proof.
  induction names as [| n names IH];
    cbn [first_name read_assignment]; [reflexivity|].
  destruct (strip_prefix n s) as [r|]; [|exact IH].
  rewrite run_value by (intros; discriminate).
  destruct (read_value r) as [[m rest]|]; [reflexivity | exact IH].
Qed.

(** A match of an assignment pattern at the head of a text is a reading of
    the assignment there. *)
Lemma match_at_assignment (names : list str) (s : str) :
  match_at (assignment names) s
  = option_map (assignment_match s) (read_assignment names s).
Proof.
  unfold match_at, assignment.
  change (run (Seq (one_of names) ?r) s None ?k)
    with (run (one_of names) s None (fun s' g' => run r s' g' k)).
  rewrite run_one_of. apply first_name_read.
Qed.

(** Searching an assignment pattern finds the first assignment: the
    captured group is the number the scanner reads. *)
Lemma search_assignment (names : list str) (s : str) :
  option_map group1 (search (assignment names) s)
  = option_map (fun v => Some (fst v)) (first_assignment names s).
Proof.
  induction s as [| c s IH]; cbn [search first_assignment];
    rewrite match_at_assignment;
    destruct (read_assignment names _) as [v|]; try reflexivity.
  exact IH.
Qed.

Lemma float_group1_search (names : list str) (s : str) :
  float_group1 (search (assignment names) s)
  = match first_assignment names s with
    | Some (n, _) => x <- py_float n ;; Ok (Some x)
    | None => Ok None
    end.
Proof.
  pose proof (search_assignment names s) as H.
  unfold float_group1.
  destruct (search (assignment names) s) as [m|],
           (first_assignment names s) as [[n rest]|];
    simpl in H; try discriminate; [|reflexivity].
  injection H as ->. reflexivity.
Qed.

(** ** [float] on what the patterns capture *)

(** A number read by the scanner is a digit, more digits, and possibly a
    point followed by digits. *)
Lemma read_number_shape (s n rest : str) :
  read_number s = Some (n, rest) ->
  exists x d1,
    is_digit x = true /\ forallb is_digit d1 = true
    /\ (n = x :: d1
        \/ exists d2, forallb is_digit d2 = true /\ n = x :: d1 ++ 46%N :: d2).
Proof.
  unfold read_number.
  pose proof (span_fst_all is_digit s) as Hall.
  destruct (span is_digit s) as [d r1]. cbn [fst] in Hall.
  destruct d as [| x d1]; [discriminate|].
  cbn [forallb] in Hall. apply andb_true_iff in Hall as [Hx Hd1].
  destruct r1 as [| c r2].
  - intros [= <- _]. exists x, d1. auto.
  - destruct (is_dot c) eqn:Ec.
    + pose proof (span_fst_all is_digit r2) as Hall2.
      destruct (span is_digit r2) as [d2 r3]. cbn [fst] in Hall2.
      intros [= <- _]. exists x, d1. repeat split; try assumption.
      right. exists d2. split; [assumption|].
      unfold is_dot in Ec. apply N.eqb_eq in Ec. now subst c.
    + intros [= <- _]. exists x, d1. auto.
Qed.

Lemma digits_value_acc (v : str) (acc : N) :
  fold_left (fun a c => (a * 10 + (c - 48))%N) v acc
  = (acc * 10 ^ N.of_nat (length v) + digits_value v)%N.
Proof.
  unfold digits_value. revert acc.
  induction v as [| c v IH]; intros acc; cbn [fold_left length].
  - rewrite N.pow_0_r. lia.
  - rewrite IH, (IH (0 * 10 + (c - 48))%N).
    rewrite Nat2N.inj_succ, N.pow_succ_r'. lia.
Qed.

Lemma digits_value_app (u v : str) :
  digits_value (u ++ v)
  = (digits_value u * 10 ^ N.of_nat (length v) + digits_value v)%N.
Proof.
  unfold digits_value at 1. rewrite fold_left_app. apply digits_value_acc.
Qed.

Lemma pow10_nonzero (k : nat) : IZR (Z.of_N (10 ^ N.of_nat k)) <> 0%R.
Proof.
  apply not_0_IZR. pose proof (N.pow_nonzero 10 (N.of_nat k)). lia.
Qed.

(** [float] of a number the scanner reads is the number it denotes. *)
Lemma py_float_number (s n rest : str) :
  read_number s = Some (n, rest) -> py_float n = Ok (number_value n).
Proof.
  intros H. destruct (read_number_shape s n rest H)
    as (x & d1 & Hx & Hd1 & [-> | (d2 & Hd2 & ->)]);
    destruct (digit_not_sign x Hx) as (Hm & Hp & _);
    unfold py_float, number_value; rewrite Hm, Hp; cbn [fst snd].
  - rewrite <- (app_nil_r (x :: d1)).
    rewrite span_all_app by (cbn [forallb]; rewrite ?Hx, ?Hd1; auto).
    f_equal. lra.
  - change (x :: d1 ++ 46%N :: d2) with ((x :: d1) ++ 46%N :: d2).
    rewrite span_all_app by (cbn [forallb]; rewrite ?Hx, ?Hd1; auto).
    rewrite Hd2.
    replace (is_dot 46%N && true
             && negb (Nat.eqb (length (x :: d1) + length d2) 0))
      with true by reflexivity.
    f_equal. rewrite digits_value_app.
    rewrite N2Z.inj_add, N2Z.inj_mul, plus_IZR, mult_IZR.
    field. apply pow10_nonzero.
Qed.

Lemma read_value_number (s n rest : str) :
  read_value s = Some (n, rest) -> exists t, read_number t = Some (n, rest).
Proof.
  unfold read_value. destruct (skip_blanks s) as [| c r]; [discriminate|].
  destruct (is_sep c); [|discriminate]. eauto.
Qed.

Lemma read_assignment_number (names : list str) (s n rest : str) :
  read_assignment names s = Some (n, rest) ->
  exists t, read_number t = Some (n, rest).
Proof.
  induction names as [| w names IH]; cbn [read_assignment]; [discriminate|].
  destruct (strip_prefix w s) as [r|]; [|exact IH].
  destruct (read_value r) as [v|] eqn:E; [|exact IH].
  intros [= ->]. eapply read_value_number, E.
Qed.

Lemma first_assignment_number (names : list str) (s n rest : str) :
  first_assignment names s = Some (n, rest) ->
  exists t, read_number t = Some (n, rest).
Proof.
  induction s as [| c s IH]; cbn [first_assignment];
    destruct (read_assignment names _) as [v|] eqn:E;
    try discriminate; try exact IH;
    intros [= ->]; eapply read_assignment_number, E.
Qed.

(** Each search of the extractor ends in a field that holds the number of
    the first occurrence, or nothing. *)
Lemma float_group1_found (names : list str) (s : str) :
  exists field,
    float_group1 (search (assignment names) s) = Ok field
    /\ found names s field.
Proof.
  rewrite float_group1_search. unfold found.
  destruct (first_assignment names s) as [[n rest]|] eqn:E.
  - destruct (first_assignment_number names s n rest E) as (t & Ht).
    rewrite (py_float_number t n rest Ht). cbn [bind]. eauto.
  - eauto.
Qed.

(** ** The parameter extractor and the classifier *)

Lemma extract_found (text : str) :
  exists ps,
    extract text = Ok ps
    /\ found [U "n1"] text (p_n1 ps)
    /\ found [U "n2"] text (p_n2 ps)
    /\ found [U "theta1"; U "θ1"; U "angle"] text (p_theta1 ps)
    /\ found [U "f"] text (p_f ps)
    /\ found [U "do"] text (p_do ps)
    /\ found [U "di"] text (p_di ps).
Proof.
  unfold extract, re_n1, re_n2, re_theta1, re_f, re_do, re_di.
  destruct (float_group1_found [U "n1"] text) as (n1 & -> & H1).
  destruct (float_group1_found [U "n2"] text) as (n2 & -> & H2).
  destruct (float_group1_found [U "theta1"; U "θ1"; U "angle"] text)
    as (t1 & -> & H3).
  destruct (float_group1_found [U "f"] text) as (f & -> & H4).
  destruct (float_group1_found [U "do"] text) as (d & -> & H5).
  destruct (float_group1_found [U "di"] text) as (i & -> & H6).
  cbn [bind]. eexists. split; [reflexivity|]. cbn. auto 10.
Qed.

Section HandlerProperties.

Variable lower : str -> str.
Variable repr_float : R -> str.
Variable str_exc : fault -> str.

(** C5. When the lower-cased text contains one of "refract", "snell",
    "angle", "n1", "n2", [analyze_problem] answers with the result of
    [calculate_snell] on the extracted n1, n2, theta1, with 1.0, 1.5 and
    30.0 in the place of those that were not found; no condition on the
    lens words: a text that also contains "lens", "focal", "object" or
    "image" is treated in the same way. *)
Theorem refraction_words_first (problem : option str) :
  any_in refraction_words (lower (get_or problem [])) = true ->
  exists ps,
    extract (lower (get_or problem [])) = Ok ps
    /\ analyze_problem lower repr_float str_exc problem
       = match calculate_snell repr_float
                 (VFloat (get_or (p_n1 ps) 1%R))
                 (VFloat (get_or (p_n2 ps) (15 / 10)%R))
                 (VFloat (get_or (p_theta1 ps) 30%R)) with
         | Ok r => [r]
         | Raise e => [failure_record str_exc e]
         end.
Proof.
  intros Hw.
  destruct (extract_found (lower (get_or problem []))) as (ps & Hps & _).
  exists ps. split; [exact Hps|].
  unfold analyze_problem, analyze_text. rewrite Hps. cbn [bind].
  rewrite Hw. unfold param_or.
  destruct (calculate_snell repr_float _ _ _); reflexivity.
Qed.

End HandlerProperties.

(** ** Formatting *)

Lemma up_IZR (k : Z) : up (IZR k) = (k + 1)%Z.
Proof.
  symmetry. apply tech_up; rewrite plus_IZR; lra.
Qed.

Lemma round_half_even_IZR (k : Z) : round_half_even (IZR k) = k.
Proof.
  unfold round_half_even. rewrite up_IZR.
  replace (k + 1 - 1)%Z with k by lia.
  destruct (Rlt_dec (IZR k - IZR k) (1 / 2)) as [_ | H]; [reflexivity | lra].
Qed.

(** The format of a number that has no more than [prec] decimals. *)
Lemma format_f_exact (prec : nat) (x : R) (z : Z) :
  (x * IZR (Z.of_N (10 ^ N.of_nat prec)))%R = IZR z ->
  format_f prec x
  = (if Rlt_dec x 0 then U "-" else [])
      ++ decimal (Z.abs_N z / 10 ^ N.of_nat prec)
      ++ U "." ++ zero_pad prec (decimal (Z.abs_N z mod 10 ^ N.of_nat prec)).
Proof.
  intros H. unfold format_f. rewrite H, round_half_even_IZR. reflexivity.
Qed.

(** A formatted number has a decimal point. *)
Lemma format_f_has_point (prec : nat) (x : R) : In 46%N (format_f prec x).
Proof.
  unfold format_f. apply in_or_app. right. apply in_or_app. right.
  left. reflexivity.
Qed.

Lemma format_f_minus_90 : format_f 6 (-90) = U "-90.000000".
Proof.
  rewrite (format_f_exact 6 (-90) (-90000000)).
  - destruct (Rlt_dec (-90) 0) as [_ | H]; [reflexivity | lra].
  - change (Z.of_N (10 ^ N.of_nat 6)) with 1000000%Z. lra.
Qed.

(** ** The ['Given'] string of the lens solver *)

Section GivenString.

Variable repr_float : R -> str.

(** C8 (amended). In every successful call of [calculate_lens] with exactly
    two of f, do, di provided, the ['Given'] string shows the two provided
    values as they were given and "?" for the variable that was missing on
    input; the solved value is not in it: it is in the payload, whose
    three fields are all present. *)
Theorem lens_given_lists_inputs (f do_ di : value) (r : record) :
  provided f do_ di = 2%nat ->
  calculate_lens repr_float f do_ di = Ok r ->
  Given r = U "f = " ++ show_input repr_float f
              ++ U ", do = " ++ show_input repr_float do_
              ++ U ", di = " ++ show_input repr_float di
  /\ exists f' do' di',
       animationData r = Some (Lens f' do' di')
       /\ is_none f' = false /\ is_none do' = false /\ is_none di' = false.
Proof.
  intros Hp.
  destruct (provided_two f do_ di Hp)
    as [(Nf & Ndo & ->) | [(Nf & -> & Ndi) | (-> & Ndo & Ndi)]].
  - rewrite lens_solve_di by assumption.
    destruct (py_div (VInt 1) f) as [rf|] eqn:Ef; [|discriminate].
    destruct (py_div (VInt 1) do_) as [rdo|] eqn:Edo; [|discriminate].
    cbn [bind]. destruct (fdiv 1 (rf - rdo)) as [x|]; [|discriminate].
    cbn [bind]. intros [= <-].
    apply py_div_one_inv in Ef as (_ & Zf & _).
    apply py_div_one_inv in Edo as (_ & Zdo & _).
    cbn [Given animationData lens_record].
    unfold given_lens, show_or_unknown, show_input.
    rewrite (truthy_nonzero f Nf Zf), (truthy_nonzero do_ Ndo Zdo), Nf, Ndo.
    split; [reflexivity|]. exists f, do_, (VFloat x). auto.
  - rewrite lens_solve_do by assumption.
    destruct (py_div (VInt 1) f) as [rf|] eqn:Ef; [|discriminate].
    destruct (py_div (VInt 1) di) as [rdi|] eqn:Edi; [|discriminate].
    cbn [bind]. destruct (fdiv 1 (rf - rdi)) as [x|]; [|discriminate].
    cbn [bind]. intros [= <-].
    apply py_div_one_inv in Ef as (_ & Zf & _).
    apply py_div_one_inv in Edi as (_ & Zdi & _).
    cbn [Given animationData lens_record].
    unfold given_lens, show_or_unknown, show_input.
    rewrite (truthy_nonzero f Nf Zf), (truthy_nonzero di Ndi Zdi), Nf, Ndi.
    split; [reflexivity|]. exists f, (VFloat x), di. auto.
  - rewrite lens_solve_f by assumption.
    destruct (py_div (VInt 1) do_) as [rdo|] eqn:Edo; [|discriminate].
    destruct (py_div (VInt 1) di) as [rdi|] eqn:Edi; [|discriminate].
    cbn [bind]. destruct (fdiv 1 (rdo + rdi)) as [x|]; [|discriminate].
    cbn [bind]. intros [= <-].
    apply py_div_one_inv in Edo as (_ & Zdo & _).
    apply py_div_one_inv in Edi as (_ & Zdi & _).
    cbn [Given animationData lens_record].
    unfold given_lens, show_or_unknown, show_input.
    rewrite (truthy_nonzero do_ Ndo Zdo), (truthy_nonzero di Ndi Zdi), Ndo, Ndi.
    split; [reflexivity|]. exists (VFloat x), do_, di. auto.
Qed.

End GivenString.

(** Solving f = 10, do = 30 for di: the example of the specification. *)
Lemma lens_10_30 :
  exists r,
    calculate_lens repr_one_decimal (VInt 10) (VInt 30) VNone = Ok r
    /\ Given r = U "f = 10, do = 30, di = ?"
    /\ Answer r = U "di = 15.000000 cm"
    /\ animationData r
       = Some (Lens (VInt 10) (VInt 30) (VFloat (1 / (1 / 10 - 1 / 30)))).
Proof.
  rewrite lens_solve_di by reflexivity.
  rewrite !py_div_one_ok by (try reflexivity; cbn [num]; lra).
  cbn [bind num]. rewrite fdiv_ok by lra. cbn [bind].
  eexists. split; [reflexivity|].
  cbn [Given Answer animationData lens_record].
  split; [reflexivity|]. split; [|reflexivity].
  rewrite (format_f_exact 6 (1 / (1 / 10 - 1 / 30)) 15000000).
  - destruct (Rlt_dec (1 / (1 / 10 - 1 / 30)) 0) as [H | _];
      [|reflexivity].
    exfalso. replace (1 / (1 / 10 - 1 / 30))%R with 15%R in H by field. lra.
  - change (Z.of_N (10 ^ N.of_nat 6)) with 1000000%Z. field.
Qed.

(** C8 (as stated) fails.  Solving f = 10, do = 30 for di gives the
    ['Given'] string "f = 10, do = 30, di = ?", which does not list the
    solved value; and f = 0 provided alone is shown as "?". *)
Lemma lens_given_counterexample :
  (exists r,
      calculate_lens repr_one_decimal (VInt 10) (VInt 30) VNone = Ok r
      /\ Given r = U "f = 10, do = 30, di = ?"
      /\ ~ given_lists_solved repr_one_decimal r)
  /\ (exists r,
         calculate_lens repr_one_decimal (VInt 0) VNone VNone = Ok r
         /\ Given r = U "f = ?, do = ?, di = ?").
Proof.
  split.
  - destruct lens_10_30 as (r & Hr & Hgiven & _ & Hanim).
    exists r. split; [exact Hr|]. split; [exact Hgiven|].
    intros (f' & do' & di' & Ha & Hg).
    rewrite Hanim in Ha. injection Ha as <- <- <-.
    rewrite Hgiven in Hg.
    change (U "f = 10, do = 30, di = ?")
      with (U "f = 10, do = 30, di = " ++ [63%N]) in Hg.
    change (U "f = " ++ show repr_one_decimal (VInt 10) ++ U ", do = "
              ++ show repr_one_decimal (VInt 30) ++ U ", di = "
              ++ show repr_one_decimal (VFloat (1 / (1 / 10 - 1 / 30))))
      with (U "f = 10, do = 30, di = "
              ++ format_f 1 (1 / (1 / 10 - 1 / 30))) in Hg.
    apply app_inv_head in Hg.
    pose proof (format_f_has_point 1 (1 / (1 / 10 - 1 / 30))) as Hin.
    rewrite <- Hg in Hin. destruct Hin as [Hin | []]. discriminate Hin.
  - eexists. split; reflexivity.
Qed.

(** ** The [exact_value] of the structured mode *)

Lemma theta2_minus_90 :
  degrees (asin (1 / 1 * sin (radians (-90)))) = (-90)%R.
Proof.
  pose proof PI_RGT_0 as Hpi.
  replace (radians (-90)) with (- (PI / 2))%R by (unfold radians; field).
  rewrite sin_neg, sin_PI2.
  replace (1 / 1 * - (1))%R with (- (1))%R by field.
  rewrite asin_opp, asin_1. unfold degrees. field. lra.
Qed.

Lemma exact_value_minus_90 :
  exact_value_snell (U "θ₂ = -90.000000°") = Ok (ExFloat 90).
Proof.
  cbv - [Rmult Rdiv Rplus Ropp IZR Rinv].
  do 2 f_equal. lra.
Qed.

(** C9. The structured request mode = "snell", n1 = 1, n2 = 1,
    theta1 = -90 is a normal refraction with theta2 = -90 and answer
    "θ₂ = -90.000000°"; the [exact_value] of the response is 90: the sign
    of theta2 is lost by the search of digits and points. *)
Theorem snell_exact_value_loses_sign
        (repr_float : R -> str) (str_exc : fault -> str) :
  exists steps,
    calculate repr_float str_exc
      {| mode := Some (U "snell");
         q_n1 := Some (VInt 1); q_n2 := Some (VInt 1);
         q_theta1 := Some (VInt (-90));
         q_f := None; q_do := None; q_di := None |}
    = Solved (U "θ₂ = -90.000000°") steps (ExFloat 90)
             (Some (Refraction (VInt 1) (VInt 1) (VInt (-90)) (-90))).
Proof.
  destruct (calculate_snell_refraction repr_float
              (VInt 1) (VInt 1) (VInt (-90)) 1 1 (-90)
              eq_refl eq_refl eq_refl)
    as (r & Hr & _ & Hans & Hanim).
  - lra.
  - pose proof (SIN_bound (radians (-90))). apply Rabs_le. lra.
  - rewrite theta2_minus_90 in Hans, Hanim.
    rewrite format_f_minus_90 in Hans.
    change (U "θ₂ = " ++ U "-90.000000" ++ U "°")
      with (U "θ₂ = -90.000000°") in Hans.
    unfold calculate, calculate_body.
    cbn [mode q_n1 q_n2 q_theta1 get_or].
    change (str_eqb (U "snell") (U "snell")) with true. cbn iota.
    rewrite Hr. cbn [bind]. rewrite Hans, Hanim, exact_value_minus_90.
    cbn [bind]. eexists. reflexivity.
Qed.

(** * The theorems at concrete inputs *)

Lemma sin_radians_90 : sin (radians 90) = 1%R.
Proof.
  replace (radians 90) with (PI / 2)%R by (unfold radians; field).
  apply sin_PI2.
Qed.

Lemma tir_condition_90 : (1 < Rabs (15 / 10 / 1 * sin (radians 90)))%R.
Proof.
  rewrite sin_radians_90. rewrite Rabs_right; lra.
Qed.

Lemma tir_branch_total_witness :
  (1 < Rabs (15 / 10 / 1 * sin (radians 90)))%R
  /\ (Rabs (1 / (15 / 10)) < 1)%R
  /\ py_asin (1 / (15 / 10)) = Ok (asin (1 / (15 / 10))).
Proof.
  split; [exact tir_condition_90|].
  destruct (tir_branch_total repr_one_decimal
              (VFloat (15 / 10)) (VFloat 1) (VFloat 90) (15 / 10) 1 90
              eq_refl eq_refl eq_refl) as (_ & Hlt & _ & Hasin & _);
    [lra | exact tir_condition_90 |].
  split; assumption.
Defined.

Lemma lens_insufficient_data_witness :
  calculate_lens repr_one_decimal (VInt 10) VNone VNone =
  Ok {| Detected := U "Lens Problem";
        Given := given_lens repr_one_decimal (VInt 10) VNone VNone;
        Formula := U "1/f = 1/do + 1/di";
        Steps := U "Error: Please provide exactly two of the three values";
        Answer := U "Insufficient data provided";
        animationData := None;
        error := None |}.
Proof.
  apply (lens_insufficient_data repr_one_decimal (VInt 10) VNone VNone).
  right. left. reflexivity.
Defined.

Lemma lens_given_lists_inputs_witness :
  exists r,
    calculate_lens repr_one_decimal (VInt 10) (VInt 30) VNone = Ok r
    /\ Given r = U "f = " ++ show_input repr_one_decimal (VInt 10)
                   ++ U ", do = " ++ show_input repr_one_decimal (VInt 30)
                   ++ U ", di = " ++ show_input repr_one_decimal VNone.
Proof.
  destruct lens_10_30 as (r & Hr & _).
  exists r. split; [exact Hr|].
  exact (proj1 (lens_given_lists_inputs repr_one_decimal
                  (VInt 10) (VInt 30) VNone r eq_refl Hr)).
Defined.

(** A text with a refraction word and a lens word. *)
Lemma refraction_words_first_witness :
  any_in lens_words
    (ascii_lower (U "Refraction at a LENS surface, N1 = 1.2")) = true
  /\ exists ps,
       extract (ascii_lower
                  (get_or (Some (U "Refraction at a LENS surface, N1 = 1.2"))
                          []))
       = Ok ps
       /\ analyze_problem ascii_lower repr_one_decimal fault_name
            (Some (U "Refraction at a LENS surface, N1 = 1.2"))
          = match calculate_snell repr_one_decimal
                    (VFloat (get_or (p_n1 ps) 1%R))
                    (VFloat (get_or (p_n2 ps) (15 / 10)%R))
                    (VFloat (get_or (p_theta1 ps) 30%R)) with
            | Ok r => [r]
            | Raise e => [failure_record fault_name e]
            end.
Proof.
  split; [vm_compute; reflexivity|].
  apply (refraction_words_first ascii_lower repr_one_decimal fault_name
           (Some (U "Refraction at a LENS surface, N1 = 1.2"))).
  vm_compute. reflexivity.
Defined.

(** * Further properties of the handlers and the solvers *)

(** ** Decimal digits *)

(** With enough fuel, [digits_fuel] puts before [acc] the digits of [n]:
    at least one, all of them digits, denoting [n], and no more than [p]
    of them when [n < 10 ^ p]. *)
Lemma digits_fuel_spec (fuel : nat) :
  forall (n : N) (acc : str),
    (n < 2 ^ N.of_nat fuel)%N -> fuel <> O ->
    exists ds,
      digits_fuel fuel n acc = ds ++ acc
      /\ ds <> []
      /\ forallb is_digit ds = true
      /\ digits_value ds = n
      /\ forall p : nat, (n < 10 ^ N.of_nat p)%N -> p <> O ->
                         (length ds <= p)%nat.
Proof.
  induction fuel as [| fuel IH]; intros n acc Hn Hf; [congruence|].
  cbn [digits_fuel].
  assert (Hm : (n mod 10 < 10)%N) by (apply N.mod_lt; discriminate).
  pose proof (N.div_mod n 10) as Hdm.
  set (q := (n / 10)%N) in *. set (m := (n mod 10)%N) in *.
  assert (Hd : is_digit (48 + m)%N = true) by (apply digit_range; lia).
  assert (Hhalf : forall b : N, (n < b * 10 -> b <> 0 -> q < b)%N).
  { intros b Hb Hb0. lia. }
  destruct (N.eqb_spec q 0) as [Hz | Hnz].
  - exists [(48 + m)%N]. repeat split.
    + discriminate.
    + cbn [forallb]. now rewrite Hd.
    + unfold digits_value. cbn [fold_left]. lia.
    + intros p _ Hp. cbn [length]. lia.
  - assert (Hlt : (q < 2 ^ N.of_nat fuel)%N).
    { rewrite Nat2N.inj_succ, N.pow_succ_r' in Hn.
      pose proof (N.pow_nonzero 2 (N.of_nat fuel)). lia. }
    assert (Hfuel : fuel <> O).
    { intros ->. cbn in Hlt. lia. }
    destruct (IH q ((48 + m)%N :: acc) Hlt Hfuel)
      as (ds & Hds & Hne & Hall & Hval & Hlen).
    exists (ds ++ [(48 + m)%N]). repeat split.
    + rewrite Hds, <- app_assoc. reflexivity.
    + destruct ds; discriminate.
    + rewrite forallb_app, Hall. cbn [forallb]. now rewrite Hd.
    + rewrite digits_value_app, Hval. unfold digits_value at 1.
      cbn [fold_left length]. rewrite N.pow_1_r. lia.
    + intros p Hp Hp0. destruct p as [| p]; [congruence|].
      rewrite length_app. cbn [length].
      assert (Hlt' : (q < 10 ^ N.of_nat p)%N).
      { rewrite Nat2N.inj_succ, N.pow_succ_r' in Hp.
        apply Hhalf; [lia|]. apply N.pow_nonzero. discriminate. }
      assert (Hp' : p <> O).
      { intros ->. cbn in Hlt'. lia. }
      specialize (Hlen p Hlt' Hp'). lia.
Qed.

Lemma decimal_spec (n : N) :
  decimal n <> []
  /\ forallb is_digit (decimal n) = true
  /\ digits_value (decimal n) = n
  /\ forall p : nat, (n < 10 ^ N.of_nat p)%N -> p <> O ->
                     (length (decimal n) <= p)%nat.
Proof.
  unfold decimal.
  destruct (digits_fuel_spec (S (N.to_nat (N.log2 n))) n [])
    as (ds & Hds & Hne & Hall & Hval & Hlen).
  - rewrite Nat2N.inj_succ, N2Nat.id.
    destruct n as [| q]; [reflexivity|].
    apply N.log2_spec. lia.
  - discriminate.
  - rewrite app_nil_r in Hds. rewrite Hds. auto.
Qed.

(** ** Formatting and reading back *)

Lemma floor_bounds (x : R) :
  (IZR (up x - 1) <= x < IZR (up x - 1) + 1)%R.
Proof.
  destruct (archimed x) as [H1 H2]. rewrite minus_IZR. lra.
Qed.

Lemma round_half_even_cases (x : R) :
  round_half_even x = (up x - 1)%Z \/ round_half_even x = (up x - 1 + 1)%Z.
Proof.
  unfold round_half_even.
  destruct (Rlt_dec _ _); [auto|].
  destruct (Rlt_dec _ _); [auto|].
  destruct (Z.even _); auto.
Qed.

Lemma round_half_even_nonneg (x : R) :
  (0 <= x)%R -> (0 <= round_half_even x)%Z.
Proof.
  intros Hx. destruct (floor_bounds x) as [_ Hhi].
  assert (H : (0 <= up x - 1)%Z).
  { apply Z.lt_succ_r. apply lt_IZR. rewrite succ_IZR. lra. }
  destruct (round_half_even_cases x) as [-> | ->]; lia.
Qed.

Lemma round_half_even_nonpos (x : R) :
  (x < 0)%R -> (round_half_even x <= 0)%Z.
Proof.
  intros Hx. destruct (floor_bounds x) as [Hlo _].
  assert (H : (up x - 1 < 0)%Z).
  { apply lt_IZR. lra. }
  destruct (round_half_even_cases x) as [-> | ->]; lia.
Qed.

Lemma pow10_positive (k : nat) : (0 < IZR (Z.of_N (10 ^ N.of_nat k)))%R.
Proof.
  apply IZR_lt. pose proof (N.pow_nonzero 10 (N.of_nat k)). lia.
Qed.

Lemma format_f_split (prec : nat) (x : R) :
  format_f prec x
  = (if Rlt_dec x 0 then U "-" else []) ++ format_f_unsigned prec x.
Proof. reflexivity. Qed.

Lemma digits_value_zeros (m : nat) : digits_value (repeat 48%N m) = 0%N.
Proof.
  induction m as [| m IH]; [reflexivity|].
  change (repeat 48%N (S m)) with ([48%N] ++ repeat 48%N m).
  rewrite digits_value_app, IH. unfold digits_value. cbn [fold_left]. lia.
Qed.

Lemma forallb_zeros (m : nat) : forallb is_digit (repeat 48%N m) = true.
Proof. induction m as [| m IH]; [reflexivity | exact IH]. Qed.

(** The fractional digits of a formatted number: [prec] digits that denote
    the remainder. *)
Lemma zero_pad_spec (prec : nat) (m : N) :
  prec <> O -> (m < 10 ^ N.of_nat prec)%N ->
  forallb is_digit (zero_pad prec (decimal m)) = true
  /\ length (zero_pad prec (decimal m)) = prec
  /\ digits_value (zero_pad prec (decimal m)) = m.
Proof.
  intros Hp Hm. destruct (decimal_spec m) as (_ & Hall & Hval & Hlen).
  specialize (Hlen prec Hm Hp). unfold zero_pad. repeat split.
  - rewrite forallb_app, forallb_zeros. exact Hall.
  - rewrite length_app, repeat_length. unfold str, char in *. lia.
  - rewrite digits_value_app, digits_value_zeros. cbn [N.mul N.add]. exact Hval.
Qed.

(** The unsigned part of a formatted number is digits, a point and [prec]
    digits; [float] reads it back as the absolute value of the rounded
    number. *)
Lemma format_f_unsigned_spec (prec : nat) (x : R) :
  prec <> O ->
  exists ip fp,
    format_f_unsigned prec x = ip ++ 46%N :: fp
    /\ ip <> []
    /\ forallb is_digit ip = true
    /\ forallb is_digit fp = true
    /\ py_float (format_f_unsigned prec x) = Ok (Rabs (round_to prec x)).
Proof.
  intros Hp. unfold format_f_unsigned, round_to.
  set (scale := (10 ^ N.of_nat prec)%N).
  set (r := round_half_even (x * IZR (Z.of_N scale))).
  set (k := Z.abs_N r).
  assert (Hscale : scale <> 0%N) by (apply N.pow_nonzero; discriminate).
  assert (Hmod : (k mod scale < scale)%N) by (apply N.mod_lt; exact Hscale).
  destruct (decimal_spec (k / scale)) as (Hne & Hall & Hval & _).
  destruct (zero_pad_spec prec (k mod scale) Hp Hmod) as (Hfall & Hflen & Hfval).
  set (ip := decimal (k / scale)) in *.
  set (fp := zero_pad prec (decimal (k mod scale))) in *.
  exists ip, fp. change (U ".") with [46%N]. cbn [app].
  repeat split; try assumption.
  destruct ip as [| d ip'] eqn:Eip; [congruence|].
  cbn [forallb] in Hall. apply andb_true_iff in Hall as [Hd Hall'].
  destruct (digit_not_sign d Hd) as (Hm & Hplus & _).
  unfold py_float. cbn [app]. rewrite Hm, Hplus. cbn [fst snd].
  change (d :: ip' ++ 46%N :: fp) with ((d :: ip') ++ 46%N :: fp).
  rewrite span_all_app by (cbn [forallb]; rewrite ?Hd, ?Hall'; auto).
  rewrite Hfall.
  replace (is_dot 46%N && true
           && negb (Nat.eqb (length (d :: ip') + length fp) 0))
    with true by reflexivity.
  f_equal. rewrite digits_value_app, Hval, Hfval, Hflen. fold scale.
  replace (k / scale * scale + k mod scale)%N with k
    by (pose proof (N.div_mod k scale Hscale); lia).
  pose proof (pow10_positive prec) as Hpos. fold scale in Hpos.
  unfold Rdiv. rewrite Rabs_mult, (Rabs_right (/ _)).
  2:{ apply Rle_ge. left. now apply Rinv_0_lt_compat. }
  rewrite Rmult_1_l. f_equal.
  unfold k. rewrite N2Z.inj_abs_N, abs_IZR. reflexivity.
Qed.

(** [float] of a minus sign before a numeral. *)
Lemma py_float_minus (d : char) (s : str) (v : R) :
  is_digit d = true ->
  py_float (d :: s) = Ok v -> py_float (45%N :: d :: s) = Ok (- v)%R.
Proof.
  intros Hd. destruct (digit_not_sign d Hd) as (Hm & Hplus & _).
  unfold py_float. change (is_minus 45%N) with true. rewrite Hm, Hplus.
  cbn [fst snd].
  destruct (span is_digit (d :: s)) as [a [| c b]].
  - destruct a; [discriminate|]. intros [= <-]. f_equal. lra.
  - destruct (is_dot c && forallb is_digit b
              && negb (Nat.eqb (length a + length b) 0)); [|discriminate].
    intros [= <-]. f_equal. lra.
Qed.

(** [float(format(x, '.Nf'))] is [x] rounded to [N] decimals. *)
Lemma py_float_format_f (prec : nat) (x : R) :
  prec <> O -> py_float (format_f prec x) = Ok (round_to prec x).
Proof.
  intros Hp.
  destruct (format_f_unsigned_spec prec x Hp)
    as (ip & fp & Hshape & Hne & Hip & Hfp & Hfloat).
  pose proof (pow10_positive prec) as Hpos.
  rewrite format_f_split.
  destruct (Rlt_dec x 0) as [Hneg | Hpos0].
  - assert (Hr : (round_half_even
                    (x * IZR (Z.of_N (10 ^ N.of_nat prec))) <= 0)%Z).
    { apply round_half_even_nonpos. nra. }
    rewrite Hshape in *.
    destruct ip as [| d ip']; [congruence|].
    cbn [forallb] in Hip. apply andb_true_iff in Hip as [Hd _].
    cbv iota.
    change (U "-" ++ (d :: ip') ++ 46%N :: fp)
      with (45%N :: d :: ip' ++ 46%N :: fp).
    etransitivity;
      [exact (py_float_minus d (ip' ++ 46%N :: fp) _ Hd Hfloat)|].
    f_equal. unfold round_to in *. rewrite Rabs_left1; [lra|].
    unfold Rdiv. pose proof (Rinv_0_lt_compat _ Hpos) as Hinv.
    apply IZR_le in Hr. nra.
  - cbn [app]. rewrite Hfloat. f_equal. apply Rabs_right.
    unfold round_to. apply Rle_ge.
    apply Rmult_le_pos; [|left; now apply Rinv_0_lt_compat].
    apply IZR_le. apply round_half_even_nonneg. nra.
Qed.

(** ** Searching a run of one character class *)

Lemma match_at_plus (p : char -> bool) (s : str) :
  match_at (plus p) s
  = match s with
    | x :: s' =>
      if p x then Some {| group0 := x :: fst (span p s'); group1 := None |}
      else None
    | [] => None
    end.
Proof.
  unfold match_at, plus. cbn [run].
  destruct s as [| x s']; [reflexivity|].
  destruct (p x); [|reflexivity].
  rewrite star_accepting by (intros; discriminate).
  do 2 f_equal. rewrite (span_app p s') at 1.
  change (x :: fst (span p s') ++ snd (span p s'))
    with ((x :: fst (span p s')) ++ snd (span p s')).
  apply taken_app.
Qed.

(** Characters outside the class are passed over. *)
Lemma search_plus_prefix (p : char -> bool) (pre s : str) :
  forallb (fun c => negb (p c)) pre = true ->
  search (plus p) (pre ++ s) = search (plus p) s.
Proof.
  induction pre as [| c pre IH]; intros H; [reflexivity|].
  cbn [forallb] in H. apply andb_true_iff in H as [Hc Hpre].
  cbn [app search]. rewrite match_at_plus.
  apply negb_true_iff in Hc. rewrite Hc. exact (IH Hpre).
Qed.

(** The match is the whole run: it stops at the first character outside
    the class. *)
Lemma search_plus_run (p : char -> bool) (pre body post : str) :
  forallb (fun c => negb (p c)) pre = true ->
  body <> [] -> forallb p body = true ->
  match post with [] => True | c :: _ => p c = false end ->
  search (plus p) (pre ++ body ++ post)
  = Some {| group0 := body; group1 := None |}.
Proof.
  intros Hpre Hne Hbody Hpost. rewrite search_plus_prefix by exact Hpre.
  destruct body as [| x b]; [congruence|].
  cbn [forallb] in Hbody. apply andb_true_iff in Hbody as [Hx Hb].
  cbn [app]. destruct (b ++ post) eqn:E;
    cbn [search]; rewrite match_at_plus, Hx; rewrite <- E;
    rewrite (span_all_app p b post Hb Hpost); reflexivity.
Qed.

Lemma forallb_weaken (p q : char -> bool) (s : str) :
  (forall c, p c = true -> q c = true) ->
  forallb p s = true -> forallb q s = true.
Proof.
  intros Hpq. induction s as [| c s IH]; [reflexivity|].
  cbn [forallb]. rewrite !andb_true_iff. intros [Hc Hs]. auto.
Qed.

(** The characters of a formatted number. *)
Lemma format_f_unsigned_chars (prec : nat) (x : R) :
  prec <> O ->
  format_f_unsigned prec x <> []
  /\ forallb unsigned_char (format_f_unsigned prec x) = true.
Proof.
  intros Hp.
  destruct (format_f_unsigned_spec prec x Hp)
    as (ip & fp & -> & Hne & Hip & Hfp & _).
  split; [destruct ip; discriminate|].
  assert (Hw : forall c, is_digit c = true -> unsigned_char c = true).
  { intros c Hc. unfold unsigned_char. now rewrite Hc. }
  rewrite forallb_app. cbn [forallb]. rewrite !andb_true_iff.
  repeat split.
  - exact (forallb_weaken is_digit unsigned_char ip Hw Hip).
  - exact (forallb_weaken is_digit unsigned_char fp Hw Hfp).
Qed.

Lemma format_f_chars (prec : nat) (x : R) :
  prec <> O ->
  format_f prec x <> [] /\ forallb signed_char (format_f prec x) = true.
Proof.
  intros Hp. destruct (format_f_unsigned_chars prec x Hp) as [Hne Hall].
  rewrite format_f_split. split.
  - destruct (Rlt_dec x 0); [discriminate | exact Hne].
  - assert (Hw : forall c, unsigned_char c = true -> signed_char c = true).
    { intros c Hc. unfold signed_char. unfold unsigned_char in Hc.
      now rewrite Hc. }
    rewrite forallb_app, andb_true_iff. split.
    + destruct (Rlt_dec x 0); reflexivity.
    + exact (forallb_weaken unsigned_char signed_char _ Hw Hall).
Qed.

(** ** Outcomes of the Snell solver *)

Lemma real_of_numeric (v : value) : is_none v = false -> real_of v = Ok (num v).
Proof. destruct v; intros H; try discriminate H; reflexivity. Qed.

Lemma py_div_numeric (a b : value) :
  is_none a = false -> is_none b = false ->
  py_div a b = fdiv (num a) (num b).
Proof.
  intros Ha Hb. unfold py_div.
  rewrite (real_of_numeric a Ha), (real_of_numeric b Hb). reflexivity.
Qed.

Section SnellOutcomes.

Variable repr_float : R -> str.

(** The record of the total-internal-reflection branch. *)
Lemma calculate_snell_tir (n1 n2 theta1 : value) :
  numeric n1 n2 theta1 -> num n2 <> 0%R ->
  (1 < Rabs (num n1 / num n2 * sin (radians (num theta1))))%R ->
  exists r,
    calculate_snell repr_float n1 n2 theta1 = Ok r
    /\ Answer r = U "Total Internal Reflection occurs" ++ newline
                    ++ U "Critical Angle: "
                    ++ format_f 6 (degrees (asin (num n2 / num n1)))
                    ++ U "°"
    /\ animationData r
       = Some (Tir n1 n2 theta1 (degrees (asin (num n2 / num n1)))).
Proof.
  intros (H1 & H2 & H3) Hb Htir.
  destruct (tir_ratio _ _ _ Hb (Rabs_sin_le_1 (radians (num theta1))) Htir)
    as [Ha Hinv].
  unfold calculate_snell.
  rewrite (real_of_numeric theta1 H3). cbn [bind].
  rewrite (py_div_numeric n1 n2 H1 H2), (fdiv_ok _ _ Hb). cbn [bind].
  destruct (Rlt_dec 1 _) as [_ | Hn]; [|contradiction].
  rewrite (py_div_numeric n2 n1 H2 H1), (fdiv_ok _ _ Ha). cbn [bind].
  rewrite py_asin_ok by lra. cbn [bind].
  eexists. repeat split.
Qed.

(** The record of the normal branch, for numeric arguments. *)
Lemma calculate_snell_normal (n1 n2 theta1 : value) :
  numeric n1 n2 theta1 -> num n2 <> 0%R ->
  ~ (1 < Rabs (num n1 / num n2 * sin (radians (num theta1))))%R ->
  exists r,
    calculate_snell repr_float n1 n2 theta1 = Ok r
    /\ Answer r
       = U "θ₂ = "
           ++ format_f 6
                (degrees (asin (num n1 / num n2
                                * sin (radians (num theta1)))))
           ++ U "°"
    /\ animationData r
       = Some (Refraction n1 n2 theta1
                 (degrees (asin (num n1 / num n2
                                 * sin (radians (num theta1)))))).
Proof.
  intros (H1 & H2 & H3) Hb Hn.
  destruct (calculate_snell_refraction repr_float n1 n2 theta1
              (num n1) (num n2) (num theta1)
              (real_of_numeric n1 H1) (real_of_numeric n2 H2)
              (real_of_numeric theta1 H3) Hb)
    as (r & Hr & _ & Ha & Han); [lra|].
  exists r. auto.
Qed.

Lemma calculate_snell_none (n1 n2 theta1 : value) :
  is_none n1 || is_none n2 || is_none theta1 = true ->
  calculate_snell repr_float n1 n2 theta1 = Raise TypeError.
Proof.
  intros H. unfold calculate_snell, py_div.
  destruct theta1; [reflexivity | |]; cbn [real_of bind];
    (destruct n1; [reflexivity | |]; cbn [real_of bind];
     (destruct n2; [reflexivity | |]; discriminate H)).
Qed.

Lemma calculate_snell_zero (n1 n2 theta1 : value) :
  numeric n1 n2 theta1 -> num n2 = 0%R ->
  calculate_snell repr_float n1 n2 theta1 = Raise ZeroDivisionError.
Proof.
  intros (H1 & H2 & H3) Hz. unfold calculate_snell.
  rewrite (real_of_numeric theta1 H3). cbn [bind].
  rewrite (py_div_numeric n1 n2 H1 H2), Hz, fdiv_zero. reflexivity.
Qed.

(** The three outcomes of a call. *)
Lemma calculate_snell_outcome (n1 n2 theta1 : value) :
  (is_none n1 || is_none n2 || is_none theta1 = true
   /\ calculate_snell repr_float n1 n2 theta1 = Raise TypeError)
  \/ (numeric n1 n2 theta1 /\ num n2 = 0%R
      /\ calculate_snell repr_float n1 n2 theta1 = Raise ZeroDivisionError)
  \/ (numeric n1 n2 theta1 /\ num n2 <> 0%R
      /\ exists r, calculate_snell repr_float n1 n2 theta1 = Ok r).
Proof.
  destruct (is_none n1 || is_none n2 || is_none theta1) eqn:Enone.
  - left. split; [reflexivity|]. now apply calculate_snell_none.
  - right. apply orb_false_iff in Enone as [Enone H3].
    apply orb_false_iff in Enone as [H1 H2].
    assert (Hnum : numeric n1 n2 theta1) by (repeat split; assumption).
    destruct (Req_dec_T (num n2) 0) as [Hz | Hnz].
    + left. auto using calculate_snell_zero.
    + right. repeat split; try assumption.
      destruct (Rlt_dec 1 (Rabs (num n1 / num n2
                                 * sin (radians (num theta1)))))
        as [Htir | Hnorm].
      * destruct (calculate_snell_tir n1 n2 theta1 Hnum Hnz Htir)
          as (r & Hr & _). eauto.
      * destruct (calculate_snell_normal n1 n2 theta1 Hnum Hnz Hnorm)
          as (r & Hr & _). eauto.
Qed.

End SnellOutcomes.

(** ** Outcomes of the lens solver *)

Section LensOutcomes.

Variable repr_float : R -> str.

Lemma calculate_lens_insufficient (f do_ di : value) :
  provided f do_ di <> 2%nat ->
  calculate_lens repr_float f do_ di
  = Ok (insufficient_record repr_float f do_ di).
Proof.
  intros H. unfold calculate_lens.
  destruct (Nat.eqb_spec (provided f do_ di) 2); [contradiction|reflexivity].
Qed.

(** The solving branches after their three divisions: a fault when a
    given value or the denominator is zero, the record otherwise. *)
Lemma solve_chain (x y : value) (op : R -> R -> R) (k : R -> R -> R -> record) :
  is_none x = false -> is_none y = false ->
  (rx <- py_div (VInt 1) x ;;
   ry <- py_div (VInt 1) y ;;
   z <- fdiv 1 (op rx ry) ;;
   Ok (k rx ry z))
  = if Req_dec_T (num x) 0 then Raise ZeroDivisionError
    else if Req_dec_T (num y) 0 then Raise ZeroDivisionError
    else if Req_dec_T (op (1 / num x) (1 / num y))%R 0
         then Raise ZeroDivisionError
         else Ok (k (1 / num x) (1 / num y)
                    (1 / op (1 / num x) (1 / num y)))%R.
Proof.
  intros Hx Hy. rewrite !py_div_one by assumption. unfold fdiv.
  destruct (Req_dec_T (num x) 0); [reflexivity|]. cbn [bind].
  destruct (Req_dec_T (num y) 0); [reflexivity|]. cbn [bind].
  destruct (Req_dec_T _ 0); reflexivity.
Qed.

(** The three outcomes of a call. *)
Lemma calculate_lens_outcome (f do_ di : value) :
  (provided f do_ di <> 2%nat
   /\ calculate_lens repr_float f do_ di
      = Ok (insufficient_record repr_float f do_ di))
  \/ (provided f do_ di = 2%nat
      /\ (zero_given f \/ zero_given do_ \/ zero_given di
          \/ lens_denominator f do_ di = 0%R)
      /\ calculate_lens repr_float f do_ di = Raise ZeroDivisionError)
  \/ (provided f do_ di = 2%nat
      /\ nonzero f /\ nonzero do_ /\ nonzero di
      /\ lens_denominator f do_ di <> 0%R
      /\ exists r,
           calculate_lens repr_float f do_ di = Ok r
           /\ Answer r = solved_name f do_ di ++ U " = "
                           ++ format_f 6 (1 / lens_denominator f do_ di)
                           ++ U " cm"
           /\ animationData r
              = Some (Lens (resolved (1 / lens_denominator f do_ di) f)
                           (resolved (1 / lens_denominator f do_ di) do_)
                           (resolved (1 / lens_denominator f do_ di) di))).
Proof.
  destruct (Nat.eq_dec (provided f do_ di) 2) as [Hp | Hp].
  2:{ left. split; [exact Hp|]. now apply calculate_lens_insufficient. }
  right.
  destruct (provided_two f do_ di Hp)
    as [(Nf & Ndo & ->) | [(Nf & -> & Ndi) | (-> & Ndo & Ndi)]].
  - rewrite lens_solve_di by assumption.
    rewrite (solve_chain f do_ Rminus) by assumption.
    unfold lens_denominator, solved_name, resolved, zero_given, nonzero.
    cbn [is_none]. rewrite Nf, Ndo.
    destruct (Req_dec_T (num f) 0) as [Zf | Zf]; [left; auto 10|].
    destruct (Req_dec_T (num do_) 0) as [Zdo | Zdo]; [left; auto 10|].
    destruct (Req_dec_T _ 0) as [Zd | Zd]; [left; auto 10|].
    right. repeat (split; [solve [auto | intros; discriminate]|]).
    eexists. repeat split.
  - rewrite lens_solve_do by assumption.
    rewrite (solve_chain f di Rminus) by assumption.
    unfold lens_denominator, solved_name, resolved, zero_given, nonzero.
    cbn [is_none]. rewrite Nf, Ndi.
    destruct (Req_dec_T (num f) 0) as [Zf | Zf]; [left; auto 10|].
    destruct (Req_dec_T (num di) 0) as [Zdi | Zdi]; [left; auto 10|].
    destruct (Req_dec_T _ 0) as [Zd | Zd]; [left; auto 10|].
    right. repeat (split; [solve [auto | intros; discriminate]|]).
    eexists. repeat split.
  - rewrite lens_solve_f by assumption.
    rewrite (solve_chain do_ di Rplus) by assumption.
    unfold lens_denominator, solved_name, resolved, zero_given, nonzero.
    cbn [is_none]. rewrite Ndo, Ndi.
    destruct (Req_dec_T (num do_) 0) as [Zdo | Zdo]; [left; auto 10|].
    destruct (Req_dec_T (num di) 0) as [Zdi | Zdi]; [left; auto 10|].
    destruct (Req_dec_T _ 0) as [Zd | Zd]; [left; auto 10|].
    right. repeat (split; [solve [auto | intros; discriminate]|]).
    eexists. repeat split.
Qed.

End LensOutcomes.

(** ** The [exact_value] of an answer *)

Lemma exact_value_solved (f do_ di : value) (x : R) :
  exact_value_lens
    (solved_name f do_ di ++ U " = " ++ format_f 6 x ++ U " cm")
  = Ok (ExFloat (round_to 6 x)).
Proof.
  unfold exact_value_lens.
  destruct (format_f_chars 6 x) as [Hne Hall]; [discriminate|].
  replace (solved_name f do_ di ++ U " = " ++ format_f 6 x ++ U " cm")
    with ((solved_name f do_ di ++ U " = ") ++ format_f 6 x ++ U " cm")
    by (rewrite <- !app_assoc; reflexivity).
  unfold re_signed.
  change (fun c : char => is_digit c || is_dot c || is_minus c)
    with signed_char.
  rewrite search_plus_run; try assumption.
  - cbn [group0]. rewrite py_float_format_f by discriminate. reflexivity.
  - unfold solved_name. destruct (is_none di), (is_none do_); reflexivity.
  - reflexivity.
Qed.

Lemma exact_value_insufficient :
  exact_value_lens (U "Insufficient data provided") = Ok ExNull.
Proof. vm_compute. reflexivity. Qed.

(** ** The structured mode *)

Section CalculateProperties.

Variable repr_float : R -> str.
Variable str_exc : fault -> str.

Lemma calculate_body_lens (data : request) :
  mode data = Some (U "lens") ->
  calculate_body repr_float data
  = (r <- calculate_lens repr_float
            (get_or (q_f data) VNone) (get_or (q_do data) VNone)
            (get_or (q_di data) VNone) ;;
     ev <- exact_value_lens (Answer r) ;;
     Ok (Solved (Answer r) (split 10%N (Steps r)) ev (animationData r))).
Proof. intros H. unfold calculate_body. rewrite H. reflexivity. Qed.

(** X9. In the structured mode, a lens request that does not provide
    exactly two of f, do, di (a missing key and a null both count as not
    provided) is answered, not refused: the result is
    "Insufficient data provided", the steps are the single error line,
    [exact_value] is null and the payload is empty. *)
Theorem calculate_lens_insufficient_response (data : request) :
  mode data = Some (U "lens") ->
  provided (get_or (q_f data) VNone) (get_or (q_do data) VNone)
           (get_or (q_di data) VNone) <> 2%nat ->
  calculate repr_float str_exc data
  = Solved (U "Insufficient data provided")
           [U "Error: Please provide exactly two of the three values"]
           ExNull None.
Proof.
  intros Hm Hp. unfold calculate. rewrite (calculate_body_lens data Hm).
  rewrite (calculate_lens_insufficient repr_float _ _ _ Hp). cbn [bind].
  unfold insufficient_record. cbn [Answer Steps animationData].
  rewrite exact_value_insufficient. cbn [bind]. reflexivity.
Qed.

(** X10. Any other mode, a missing mode included, is answered with the
    error "Invalid mode" and no solver is called. *)
Theorem calculate_invalid_mode (data : request) :
  mode data <> Some (U "snell") -> mode data <> Some (U "lens") ->
  calculate repr_float str_exc data = Failed (U "Invalid mode").
Proof.
  assert (Heq : forall s t, str_eqb s t = true -> s = t).
  { induction s as [| a s IH]; intros [| b t]; cbn [str_eqb];
      try discriminate; [reflexivity|].
    intros H. apply andb_true_iff in H as [Hab Hst].
    apply N.eqb_eq in Hab. subst b. f_equal. now apply IH. }
  intros Hs Hl. unfold calculate, calculate_body.
  destruct (mode data) as [m|]; [|reflexivity].
  destruct (str_eqb m (U "snell")) eqn:Es.
  { apply Heq in Es. subst m. contradiction. }
  destruct (str_eqb m (U "lens")) eqn:El.
  { apply Heq in El. subst m. contradiction. }
  reflexivity.
Qed.

End CalculateProperties.

(** ** Lines: [join] and [split] *)

Lemma split_acc_nonempty (c : char) (s cur : str) : split_acc c cur s <> [].
Proof.
  revert cur. induction s as [| a s IH]; intros cur; cbn [split_acc].
  - discriminate.
  - destruct (a =? c)%N; [discriminate | apply IH].
Qed.

Lemma join_cons (sep p : str) (ps : list str) :
  ps <> [] -> join sep (p :: ps) = p ++ sep ++ join sep ps.
Proof. destruct ps; [congruence | reflexivity]. Qed.

(** Joining the pieces of a split text gives the text back. *)
Lemma join_split_acc (c : char) (s cur : str) :
  join [c] (split_acc c cur s) = rev cur ++ s.
Proof.
  revert cur. induction s as [| a s IH]; intros cur; cbn [split_acc].
  - cbn [join]. now rewrite app_nil_r.
  - destruct (N.eqb_spec a c) as [-> | Hne].
    + rewrite join_cons by apply split_acc_nonempty.
      rewrite IH. reflexivity.
    + rewrite IH. cbn [rev]. rewrite <- app_assoc. reflexivity.
Qed.

Lemma join_split (c : char) (s : str) : join [c] (split c s) = s.
Proof. unfold split. apply join_split_acc. Qed.

Lemma split_acc_line (l rest cur : str) :
  one_line l ->
  split_acc 10%N cur (l ++ 10%N :: rest)
  = (rev cur ++ l) :: split_acc 10%N [] rest.
Proof.
  unfold one_line. revert cur.
  induction l as [| a l IH]; intros cur H; cbn [app split_acc].
  - rewrite app_nil_r. reflexivity.
  - cbn [forallb] in H. apply andb_true_iff in H as [Ha Hl].
    apply negb_true_iff in Ha. rewrite Ha, (IH _ Hl). cbn [rev].
    rewrite <- app_assoc. reflexivity.
Qed.

Lemma split_acc_last (l cur : str) :
  one_line l -> split_acc 10%N cur l = [rev cur ++ l].
Proof.
  unfold one_line. revert cur.
  induction l as [| a l IH]; intros cur H; cbn [split_acc].
  - rewrite app_nil_r. reflexivity.
  - cbn [forallb] in H. apply andb_true_iff in H as [Ha Hl].
    apply negb_true_iff in Ha. rewrite Ha, (IH _ Hl). cbn [rev].
    rewrite <- app_assoc. reflexivity.
Qed.

(** Splitting joined lines gives the lines back. *)
Lemma split_join (lines : list str) :
  lines <> [] -> Forall one_line lines ->
  split 10%N (join newline lines) = lines.
Proof.
  unfold split, newline.
  induction lines as [| l lines IH]; intros Hne Hall; [congruence|].
  inversion Hall as [| ? ? Hl Hrest]; subst.
  destruct lines as [| l' lines'].
  - cbn [join]. now apply split_acc_last.
  - rewrite join_cons by discriminate. cbn [app].
    rewrite split_acc_line by exact Hl. cbn [rev app]. f_equal.
    apply IH; [discriminate | exact Hrest].
Qed.

Lemma one_line_app (a b : str) : one_line a -> one_line b -> one_line (a ++ b).
Proof.
  unfold one_line. intros Ha Hb. rewrite forallb_app.
  apply andb_true_iff. split; assumption.
Qed.

Lemma signed_char_not_newline (c : char) :
  signed_char c = true -> negb (c =? 10)%N = true.
Proof.
  intros H. destruct (N.eqb_spec c 10) as [-> | _];
    [discriminate H | reflexivity].
Qed.

Lemma one_line_format_f (prec : nat) (x : R) :
  prec <> O -> one_line (format_f prec x).
Proof.
  intros Hp. destruct (format_f_chars prec x Hp) as [_ Hall].
  exact (forallb_weaken signed_char _ _ signed_char_not_newline Hall).
Qed.

Lemma one_line_repr_int (z : Z) : one_line (repr_int z).
Proof.
  unfold repr_int. apply one_line_app.
  - destruct (z <? 0)%Z; reflexivity.
  - destruct (decimal_spec (Z.abs_N z)) as (_ & Hall & _).
    refine (forallb_weaken is_digit _ _ _ Hall).
    intros c Hc. apply signed_char_not_newline. unfold signed_char.
    now rewrite Hc.
Qed.

Lemma one_line_show (repr_float : R -> str) (v : value) :
  (forall x, one_line (repr_float x)) -> one_line (show repr_float v).
Proof.
  intros H. destruct v; cbn [show];
    [reflexivity | apply one_line_repr_int | apply H].
Qed.

Ltac one_line_pieces H :=
  repeat match goal with
         | |- one_line (_ ++ _) => apply one_line_app
         end;
  try reflexivity;
  try (apply one_line_show; exact H);
  try (apply one_line_format_f; discriminate).

(** ** The derivation lines *)

Lemma Ok_inj (A : Type) (a b : A) : Ok a = Ok b -> a = b.
Proof. intros H. now injection H. Qed.

Lemma cons2_app (A : Type) (a b : A) (l : list A) : [a; b] ++ l = a :: b :: l.
Proof. reflexivity. Qed.

Section StepLines.

Variable repr_float : R -> str.
Variable str_exc : fault -> str.
Hypothesis repr_one_line : forall x, one_line (repr_float x).

Lemma snell_step_count (n1 n2 theta1 : value) (r : record) :
  calculate_snell repr_float n1 n2 theta1 = Ok r ->
  length (split 10%N (Steps r))
  = match animationData r with
    | Some (Tir _ _ _ _) => 4%nat
    | _ => 3%nat
    end.
Proof.
  destruct (calculate_snell_outcome repr_float n1 n2 theta1)
    as [(_ & He) | [(_ & _ & He) | ((H1 & H2 & H3) & Hnz & _)]];
    [congruence | congruence |].
  unfold calculate_snell.
  rewrite (real_of_numeric theta1 H3). cbn [bind].
  rewrite (py_div_numeric n1 n2 H1 H2), (fdiv_ok _ _ Hnz). cbn [bind].
  destruct (Rlt_dec 1 _) as [Htir | Hnorm].
  - destruct (tir_ratio _ _ _ Hnz
                (Rabs_sin_le_1 (radians (num theta1))) Htir) as [Ha Hinv].
    rewrite (py_div_numeric n2 n1 H2 H1), (fdiv_ok _ _ Ha). cbn [bind].
    rewrite py_asin_ok by lra. cbn [bind]. intros E. apply Ok_inj in E. subst r.
    cbv beta iota delta [Steps animationData]. rewrite (cons2_app str).
    rewrite split_join; [reflexivity | discriminate |].
    repeat constructor; one_line_pieces repr_one_line.
  - rewrite py_asin_ok by lra. cbn [bind]. intros E. apply Ok_inj in E. subst r.
    cbv beta iota delta [Steps animationData]. rewrite (cons2_app str).
    rewrite split_join; [reflexivity | discriminate |].
    repeat constructor; one_line_pieces repr_one_line.
Qed.

Lemma lens_step_count (f do_ di : value) (r : record) :
  calculate_lens repr_float f do_ di = Ok r ->
  length (split 10%N (Steps r))
  = match animationData r with
    | Some _ => 3%nat
    | None => 1%nat
    end.
Proof.
  destruct (Nat.eq_dec (provided f do_ di) 2) as [Hp | Hp].
  2:{ rewrite (calculate_lens_insufficient repr_float f do_ di Hp).
      intros [= <-]. reflexivity. }
  destruct (provided_two f do_ di Hp)
    as [(Nf & Ndo & ->) | [(Nf & -> & Ndi) | (-> & Ndo & Ndi)]].
  - rewrite lens_solve_di by assumption.
    rewrite (solve_chain f do_ Rminus) by assumption.
    destruct (Req_dec_T (num f) 0); [discriminate|].
    destruct (Req_dec_T (num do_) 0); [discriminate|].
    destruct (Req_dec_T _ 0); [discriminate|]. intros E. apply Ok_inj in E. subst r.
    cbv beta iota delta [Steps animationData lens_record].
    rewrite split_join; [reflexivity | discriminate |].
    repeat constructor; one_line_pieces repr_one_line.
  - rewrite lens_solve_do by assumption.
    rewrite (solve_chain f di Rminus) by assumption.
    destruct (Req_dec_T (num f) 0); [discriminate|].
    destruct (Req_dec_T (num di) 0); [discriminate|].
    destruct (Req_dec_T _ 0); [discriminate|]. intros E. apply Ok_inj in E. subst r.
    cbv beta iota delta [Steps animationData lens_record].
    rewrite split_join; [reflexivity | discriminate |].
    repeat constructor; one_line_pieces repr_one_line.
  - rewrite lens_solve_f by assumption.
    rewrite (solve_chain do_ di Rplus) by assumption.
    destruct (Req_dec_T (num do_) 0); [discriminate|].
    destruct (Req_dec_T (num di) 0); [discriminate|].
    destruct (Req_dec_T _ 0); [discriminate|]. intros E. apply Ok_inj in E. subst r.
    cbv beta iota delta [Steps animationData lens_record].
    rewrite split_join; [reflexivity | discriminate |].
    repeat constructor; one_line_pieces repr_one_line.
Qed.

(** X14. When [repr] of a float is written on one line, a solved response
    of the structured mode lists the derivation lines one by one: four for
    a total internal reflection, three for a refraction and for a solved
    lens problem, one (the error line) when the lens data are
    insufficient. *)
Theorem calculate_step_count (data : request) (answer : str)
        (steps : list str) (ev : exact) (payload : option animation) :
  calculate repr_float str_exc data = Solved answer steps ev payload ->
  length steps
  = match payload with
    | Some (Tir _ _ _ _) => 4%nat
    | Some _ => 3%nat
    | None => 1%nat
    end.
Proof.
  unfold calculate, calculate_body.
  destruct (mode data) as [m|]; [|discriminate].
  destruct (str_eqb m (U "snell")).
  - destruct (calculate_snell _ _ _ _) as [r|] eqn:Er; [|discriminate].
    cbn [bind]. destruct (exact_value_snell _); [|discriminate].
    cbn [bind]. intros [= <- <- <- <-].
    rewrite (snell_step_count _ _ _ r Er).
    destruct (calculate_snell_outcome repr_float
                (get_or (q_n1 data) (VFloat 1))
                (get_or (q_n2 data) (VFloat (15 / 10)))
                (get_or (q_theta1 data) (VFloat 0)))
      as [(_ & He) | [(_ & _ & He) | (Hnum & Hnz & _)]];
      [congruence | congruence |].
    destruct (Rlt_dec 1 (Rabs (num (get_or (q_n1 data) (VFloat 1))
                               / num (get_or (q_n2 data) (VFloat (15 / 10)))
                               * sin (radians
                                        (num (get_or (q_theta1 data)
                                                     (VFloat 0)))))))
      as [Htir | Hnorm].
    + destruct (calculate_snell_tir repr_float _ _ _ Hnum Hnz Htir)
        as (r' & Hr' & _ & Han).
      assert (r' = r) by congruence. subst r'. rewrite Han. reflexivity.
    + destruct (calculate_snell_normal repr_float _ _ _ Hnum Hnz Hnorm)
        as (r' & Hr' & _ & Han).
      assert (r' = r) by congruence. subst r'. rewrite Han. reflexivity.
  - destruct (str_eqb m (U "lens")); [|discriminate].
    destruct (calculate_lens _ _ _ _) as [r|] eqn:Er; [|discriminate].
    cbn [bind]. destruct (exact_value_lens _); [|discriminate].
    cbn [bind]. intros [= <- <- <- <-].
    rewrite (lens_step_count _ _ _ r Er).
    destruct (calculate_lens_outcome repr_float
                (get_or (q_f data) VNone) (get_or (q_do data) VNone)
                (get_or (q_di data) VNone))
      as [(_ & Hr) | [(_ & _ & Hr) | (_ & _ & _ & _ & _ & r' & Hr' & _ & Han)]].
    + rewrite Hr in Er. injection Er as <-. reflexivity.
    + congruence.
    + assert (r' = r) by congruence. subst r'. rewrite Han. reflexivity.
Qed.

End StepLines.

Lemma str_eqb_eq (s t : str) : str_eqb s t = true -> s = t.
Proof.
  revert t. induction s as [| a s IH]; intros [| b t]; cbn [str_eqb];
    try discriminate; [reflexivity|].
  intros H. apply andb_true_iff in H as [Hab Hst].
  apply N.eqb_eq in Hab. subst b. f_equal. now apply IH.
Qed.

Section Carried.

Variable repr_float : R -> str.
Variable str_exc : fault -> str.

(** X13. A solved response of the structured mode carries the record of
    the solver that the mode selects: its result is the record's answer,
    its payload the record's payload, and its steps, joined by line
    breaks, are the record's derivation text: splitting loses nothing. *)
Theorem calculate_carries_record (data : request) (answer : str)
        (steps : list str) (ev : exact) (payload : option animation) :
  calculate repr_float str_exc data = Solved answer steps ev payload ->
  exists r,
    ((mode data = Some (U "snell")
      /\ calculate_snell repr_float
           (get_or (q_n1 data) (VFloat 1))
           (get_or (q_n2 data) (VFloat (15 / 10)))
           (get_or (q_theta1 data) (VFloat 0)) = Ok r)
     \/ (mode data = Some (U "lens")
         /\ calculate_lens repr_float
              (get_or (q_f data) VNone) (get_or (q_do data) VNone)
              (get_or (q_di data) VNone) = Ok r))
    /\ answer = Answer r
    /\ join newline steps = Steps r
    /\ payload = animationData r.
Proof.
  unfold calculate, calculate_body.
  destruct (mode data) as [m|]; [|discriminate].
  destruct (str_eqb m (U "snell")) eqn:Es.
  - apply str_eqb_eq in Es. subst m.
    destruct (calculate_snell _ _ _ _) as [r|]; [|discriminate].
    cbn [bind]. destruct (exact_value_snell _); [|discriminate].
    cbn [bind]. intros [= <- <- <- <-].
    exists r. repeat split; auto. apply join_split.
  - destruct (str_eqb m (U "lens")) eqn:El; [|discriminate].
    apply str_eqb_eq in El. subst m.
    destruct (calculate_lens _ _ _ _) as [r|]; [|discriminate].
    cbn [bind]. destruct (exact_value_lens _); [|discriminate].
    cbn [bind]. intros [= <- <- <- <-].
    exists r. repeat split; auto. apply join_split.
Qed.

End Carried.

(** ** The free-text mode *)

Lemma number_value_nonneg (n : str) : (0 <= number_value n)%R.
Proof.
  unfold number_value. destruct (span is_digit n) as [ip rest].
  assert (Hn : forall k : N, (0 <= IZR (Z.of_N k))%R)
    by (intros k; apply IZR_le; lia).
  pose proof (Hn (digits_value ip)).
  destruct rest as [| c fp]; [lra|].
  pose proof (Hn (digits_value fp)).
  pose proof (pow10_positive (length fp)) as Hpos.
  apply Rinv_0_lt_compat in Hpos. unfold Rdiv. nra.
Qed.

Lemma found_nonneg (names : list str) (text : str) (field : option R) :
  found names text field -> nonneg_field field.
Proof.
  unfold found. intros ->.
  destruct (first_assignment names text) as [[n rest]|]; cbn;
    [apply number_value_nonneg | exact I].
Qed.

(** X15. The extractor never gives a negative value: its patterns have no
    sign, so every parameter it finds is a number that is zero or
    positive. *)
Theorem extract_nonnegative (text : str) (ps : params) :
  extract text = Ok ps ->
  nonneg_field (p_n1 ps) /\ nonneg_field (p_n2 ps)
  /\ nonneg_field (p_theta1 ps) /\ nonneg_field (p_f ps)
  /\ nonneg_field (p_do ps) /\ nonneg_field (p_di ps).
Proof.
  intros H.
  destruct (extract_found text)
    as (ps' & Hps & H1 & H2 & H3 & H4 & H5 & H6).
  assert (ps' = ps) by congruence. subst ps'.
  repeat split; eapply found_nonneg; eassumption.
Qed.

Section AnalyzeProperties.

Variable lower : str -> str.
Variable repr_float : R -> str.
Variable str_exc : fault -> str.

(** X16. A text without a refraction word and with one of "lens",
    "focal", "object", "image" goes to the lens solver with the extracted
    f, do, di, a parameter that was not found being [None]: nothing is
    defaulted. *)
Theorem analyze_lens_branch (problem : option str) :
  any_in refraction_words (lower (get_or problem [])) = false ->
  any_in lens_words (lower (get_or problem [])) = true ->
  exists ps,
    extract (lower (get_or problem [])) = Ok ps
    /\ analyze_problem lower repr_float str_exc problem
       = match calculate_lens repr_float
                 (param (p_f ps)) (param (p_do ps)) (param (p_di ps)) with
         | Ok r => [r]
         | Raise e => [failure_record str_exc e]
         end.
Proof.
  intros Hr Hl.
  destruct (extract_found (lower (get_or problem []))) as (ps & Hps & _).
  exists ps. split; [exact Hps|].
  unfold analyze_problem, analyze_text. rewrite Hps. cbn [bind].
  rewrite Hr, Hl.
  destruct (calculate_lens repr_float _ _ _); reflexivity.
Qed.

(** X17. A text with none of the nine key words is answered with the
    fixed record "Could not identify specific problem type", whatever
    parameters it holds; so is a request without the ['problem'] key, when
    the lower case of the empty text is empty. *)
Theorem analyze_unrecognized (problem : option str) :
  (any_in refraction_words (lower (get_or problem [])) = false ->
   any_in lens_words (lower (get_or problem [])) = false ->
   analyze_problem lower repr_float str_exc problem = [unrecognized_record])
  /\ (lower [] = [] ->
      analyze_problem lower repr_float str_exc None = [unrecognized_record]).
Proof.
  assert (H : forall p : option str,
             any_in refraction_words (lower (get_or p [])) = false ->
             any_in lens_words (lower (get_or p [])) = false ->
             analyze_problem lower repr_float str_exc p
             = [unrecognized_record]).
  { intros p Hr Hl.
    destruct (extract_found (lower (get_or p []))) as (ps & Hps & _).
    unfold analyze_problem, analyze_text. rewrite Hps. cbn [bind].
    rewrite Hr, Hl. reflexivity. }
  split; [apply H|].
  intros Hlow. apply H; cbn [get_or]; rewrite Hlow; reflexivity.
Qed.

End AnalyzeProperties.

(** * The further properties at concrete inputs *)

Lemma calculate_lens_insufficient_response_witness :
  calculate repr_one_decimal fault_name lens_f_only
  = Solved (U "Insufficient data provided")
           [U "Error: Please provide exactly two of the three values"]
           ExNull None.
Proof.
  apply (calculate_lens_insufficient_response repr_one_decimal fault_name
           lens_f_only).
  - reflexivity.
  - discriminate.
Defined.

Lemma calculate_invalid_mode_witness :
  calculate repr_one_decimal fault_name
    (request_of None None None None None None None)
  = Failed (U "Invalid mode").
Proof.
  apply (calculate_invalid_mode repr_one_decimal fault_name); discriminate.
Defined.

(** The response to a lens request that gives f alone. *)
Lemma lens_f_only_response :
  calculate repr_one_decimal fault_name lens_f_only
  = Solved (U "Insufficient data provided")
           [U "Error: Please provide exactly two of the three values"]
           ExNull None.
Proof.
  unfold calculate. rewrite calculate_body_lens by reflexivity.
  rewrite calculate_lens_insufficient by discriminate. cbn [bind].
  unfold insufficient_record. cbn [Answer Steps animationData].
  rewrite exact_value_insufficient. reflexivity.
Qed.

Lemma calculate_carries_record_witness :
  exists r,
    ((mode lens_f_only = Some (U "snell")
      /\ calculate_snell repr_one_decimal
           (get_or (q_n1 lens_f_only) (VFloat 1))
           (get_or (q_n2 lens_f_only) (VFloat (15 / 10)))
           (get_or (q_theta1 lens_f_only) (VFloat 0)) = Ok r)
     \/ (mode lens_f_only = Some (U "lens")
         /\ calculate_lens repr_one_decimal
              (get_or (q_f lens_f_only) VNone)
              (get_or (q_do lens_f_only) VNone)
              (get_or (q_di lens_f_only) VNone) = Ok r))
    /\ U "Insufficient data provided" = Answer r
    /\ join newline
         [U "Error: Please provide exactly two of the three values"]
       = Steps r
    /\ None = animationData r.
Proof.
  exact (calculate_carries_record repr_one_decimal fault_name lens_f_only
           _ _ _ _ lens_f_only_response).
Defined.

Lemma repr_one_decimal_one_line (x : R) : one_line (repr_one_decimal x).
Proof. apply one_line_format_f. discriminate. Qed.

(** The response to the lens request f = 10, do = 30. *)
Lemma lens_10_30_response :
  exists steps ev,
    calculate repr_one_decimal fault_name lens_10_30_request
    = Solved (U "di = 15.000000 cm") steps ev
             (Some (Lens (VInt 10) (VInt 30)
                         (VFloat (1 / (1 / 10 - 1 / 30))))).
Proof.
  destruct lens_10_30 as (r & Hr & _ & Ha & Han).
  unfold calculate. rewrite calculate_body_lens by reflexivity.
  change (get_or (q_f lens_10_30_request) VNone) with (VInt 10).
  change (get_or (q_do lens_10_30_request) VNone) with (VInt 30).
  change (get_or (q_di lens_10_30_request) VNone) with VNone.
  rewrite Hr. cbn [bind]. rewrite Ha, Han.
  change (U "di = 15.000000 cm")
    with (solved_name (VInt 10) (VInt 30) VNone ++ U " = "
            ++ U "15.000000" ++ U " cm").
  replace (U "15.000000") with (format_f 6 15).
  - rewrite exact_value_solved. cbn [bind]. eexists. eexists. reflexivity.
  - rewrite (format_f_exact 6 15 15000000).
    + destruct (Rlt_dec 15 0) as [H | _]; [lra | reflexivity].
    + change (Z.of_N (10 ^ N.of_nat 6)) with 1000000%Z. lra.
Qed.

Lemma calculate_step_count_witness :
  exists steps ev,
    calculate repr_one_decimal fault_name lens_10_30_request
    = Solved (U "di = 15.000000 cm") steps ev
             (Some (Lens (VInt 10) (VInt 30)
                         (VFloat (1 / (1 / 10 - 1 / 30)))))
    /\ length steps = 3%nat.
Proof.
  destruct lens_10_30_response as (steps & ev & H).
  exists steps, ev. split; [exact H|].
  exact (calculate_step_count repr_one_decimal fault_name
           repr_one_decimal_one_line lens_10_30_request _ _ _ _ H).
Defined.

(** The extractor on sample texts. *)
Lemma extract_refraction_sample :
  extract (U "n1=1 n2=1.5 angle=45")
  = Ok {| p_n1 := Some 1%R; p_n2 := Some (15 / 10)%R;
          p_theta1 := Some 45%R;
          p_f := None; p_do := None; p_di := None |}.
Proof.
  cbv - [Rmult Rdiv Rplus Ropp IZR Rinv].
  replace (1 * 1)%R with 1%R by lra.
  replace (1 * (15 / 10))%R with (15 / 10)%R by lra.
  replace (1 * 45)%R with 45%R by lra. reflexivity.
Qed.

Lemma extract_nonnegative_witness :
  nonneg_field (Some 1%R) /\ nonneg_field (Some (15 / 10)%R)
  /\ nonneg_field (Some 45%R) /\ nonneg_field None
  /\ nonneg_field None /\ nonneg_field None.
Proof.
  exact (extract_nonnegative (U "n1=1 n2=1.5 angle=45") _
           extract_refraction_sample).
Defined.

Lemma analyze_lens_branch_witness :
  exists ps,
    extract (ascii_lower
               (get_or (Some (U "A LENS with f = 10 and do = 30")) []))
    = Ok ps
    /\ analyze_problem ascii_lower repr_one_decimal fault_name
         (Some (U "A LENS with f = 10 and do = 30"))
       = match calculate_lens repr_one_decimal
                 (param (p_f ps)) (param (p_do ps)) (param (p_di ps)) with
         | Ok r => [r]
         | Raise e => [failure_record fault_name e]
         end.
Proof.
  apply (analyze_lens_branch ascii_lower repr_one_decimal fault_name
           (Some (U "A LENS with f = 10 and do = 30"))).
  - vm_compute. reflexivity.
  - vm_compute. reflexivity.
Defined.

Lemma analyze_unrecognized_witness :
  analyze_problem ascii_lower repr_one_decimal fault_name
    (Some (U "What is light?"))
  = [unrecognized_record]
  /\ analyze_problem ascii_lower repr_one_decimal fault_name None
     = [unrecognized_record].
Proof.
  split.
  - apply (proj1 (analyze_unrecognized ascii_lower repr_one_decimal
                    fault_name (Some (U "What is light?")))).
    + vm_compute. reflexivity.
    + vm_compute. reflexivity.
  - apply (proj2 (analyze_unrecognized ascii_lower repr_one_decimal
                    fault_name None)).
    reflexivity.
Defined.

(** * The binary64 reading *)

Module Binary64Properties.
Import Binary64.

(** ** Floats *)

Lemma is_zero_iff (x : float) :
  is_zero x = true <-> exists s, x = S754_zero s.
Proof.
  destruct x as [s | s | | s m e]; split; intros H;
    try (destruct H as (t & H); discriminate H);
    try (exists s; reflexivity); try reflexivity;
    try (destruct s; discriminate H).
  discriminate H.
Qed.

Lemma fdiv_by_zero (x d : float) :
  is_zero d = true -> fdiv x d = Raise ZeroDivisionError.
Proof. intros H. unfold fdiv. now rewrite H. Qed.


(** A finite float minus itself is a zero. *)
Lemma fsub_diag (r : float) : is_finite r = true -> is_zero (fsub r r) = true.
Proof.
  destruct r as [s | s | | s m e]; try discriminate; intros _.
  - destruct s; reflexivity.
  - unfold fsub, SFsub. rewrite Z.min_id.
    unfold shl_align. rewrite !Z.sub_diag. reflexivity.
Qed.

(** [1 / v] faults exactly on a missing or a zero operand. *)
Lemma py_div_1_cases (v : value) :
  match py_div_1 v with
  | Ok r => is_none v = false /\ zero_given v = false
  | Raise e =>
    (e = TypeError /\ v = VNone)
    \/ (e = ZeroDivisionError /\ zero_given v = true)
  end.
Proof.
  destruct v as [| z | x]; cbn [py_div_1 zero_given is_none].
  - auto.
  - destruct (z =? 0)%Z; auto.
  - unfold fdiv. destruct (is_zero x); auto.
Qed.

(** ** The lens solver *)

(** The three cases of exactly two provided values. *)
Lemma provided_two_values (f do_ di : value) :
  provided f do_ di = 2%nat ->
  (is_none f = false /\ is_none do_ = false /\ di = VNone)
  \/ (is_none f = false /\ do_ = VNone /\ is_none di = false)
  \/ (f = VNone /\ is_none do_ = false /\ is_none di = false).
Proof.
  destruct f, do_, di; cbv [provided filter is_none negb length];
    intros H; try discriminate H; auto 10.
Qed.

Section LensSolver.

Variable repr_float : float -> str.

Lemma solve_di (f do_ : value) :
  is_none f = false -> is_none do_ = false ->
  calculate_lens repr_float f do_ VNone =
  (rf <- py_div_1 f ;;
   rdo <- py_div_1 do_ ;;
   di_calc <- fdiv one (fsub rf rdo) ;;
   Ok (lens_record repr_float f do_ VNone (U "di")
         [ U "Step 1: 1/di = 1/f - 1/do = 1/" ++ show repr_float f
             ++ U " - 1/" ++ show repr_float do_;
           U "Step 2: 1/di = " ++ format_f 6 rf ++ U " - " ++ format_f 6 rdo
             ++ U " = " ++ format_f 6 (fsub rf rdo);
           U "Step 3: di = 1 / " ++ format_f 6 (fsub rf rdo) ++ U " = "
             ++ format_f 6 di_calc ++ U " cm" ]
         di_calc (Lens f do_ (VFloat di_calc)))).
Proof. destruct f, do_; try discriminate; reflexivity. Qed.

Lemma solve_do (f di : value) :
  is_none f = false -> is_none di = false ->
  calculate_lens repr_float f VNone di =
  (rf <- py_div_1 f ;;
   rdi <- py_div_1 di ;;
   do_calc <- fdiv one (fsub rf rdi) ;;
   Ok (lens_record repr_float f VNone di (U "do")
         [ U "Step 1: 1/do = 1/f - 1/di = 1/" ++ show repr_float f
             ++ U " - 1/" ++ show repr_float di;
           U "Step 2: 1/do = " ++ format_f 6 rf ++ U " - " ++ format_f 6 rdi
             ++ U " = " ++ format_f 6 (fsub rf rdi);
           U "Step 3: do = 1 / " ++ format_f 6 (fsub rf rdi) ++ U " = "
             ++ format_f 6 do_calc ++ U " cm" ]
         do_calc (Lens f (VFloat do_calc) di))).
Proof. destruct f, di; try discriminate; reflexivity. Qed.

Lemma solve_f (do_ di : value) :
  is_none do_ = false -> is_none di = false ->
  calculate_lens repr_float VNone do_ di =
  (rdo <- py_div_1 do_ ;;
   rdi <- py_div_1 di ;;
   f_calc <- fdiv one (fadd rdo rdi) ;;
   Ok (lens_record repr_float VNone do_ di (U "f")
         [ U "Step 1: 1/f = 1/do + 1/di = 1/" ++ show repr_float do_
             ++ U " + 1/" ++ show repr_float di;
           U "Step 2: 1/f = " ++ format_f 6 rdo ++ U " + " ++ format_f 6 rdi
             ++ U " = " ++ format_f 6 (fadd rdo rdi);
           U "Step 3: f = 1 / " ++ format_f 6 (fadd rdo rdi) ++ U " = "
             ++ format_f 6 f_calc ++ U " cm" ]
         f_calc (Lens (VFloat f_calc) do_ di))).
Proof. destruct do_, di; try discriminate; reflexivity. Qed.

(** With two provided values the solver faults as the solved value does,
    and otherwise returns the record of that value. *)
Lemma calculate_lens_solve (f do_ di : value) :
  provided f do_ di = 2%nat ->
  match lens_solve f do_ di with
  | Ok x =>
    exists steps,
      calculate_lens repr_float f do_ di
      = Ok (lens_record repr_float f do_ di (solved_name f do_ di) steps x
              (Lens (resolved x f) (resolved x do_) (resolved x di)))
  | Raise e => calculate_lens repr_float f do_ di = Raise e
  end.
Proof.
  intros Hp.
  destruct (provided_two_values f do_ di Hp)
    as [(Nf & Ndo & ->) | [(Nf & -> & Ndi) | (-> & Ndo & Ndi)]].
  - rewrite solve_di by assumption.
    unfold lens_solve, lens_denominator, solved_name, resolved.
    cbn [is_none]. rewrite Nf, Ndo.
    destruct (py_div_1 f) as [rf | e]; cbn [bind]; [|reflexivity].
    destruct (py_div_1 do_) as [rdo | e]; cbn [bind]; [|reflexivity].
    destruct (fdiv one (fsub rf rdo)) as [x | e]; cbn [bind]; [|reflexivity].
    eexists. reflexivity.
  - rewrite solve_do by assumption.
    unfold lens_solve, lens_denominator, solved_name, resolved.
    cbn [is_none]. rewrite Nf, Ndi.
    destruct (py_div_1 f) as [rf | e]; cbn [bind]; [|reflexivity].
    destruct (py_div_1 di) as [rdi | e]; cbn [bind]; [|reflexivity].
    destruct (fdiv one (fsub rf rdi)) as [x | e]; cbn [bind]; [|reflexivity].
    eexists. reflexivity.
  - rewrite solve_f by assumption.
    unfold lens_solve, lens_denominator, solved_name, resolved.
    cbn [is_none]. rewrite Ndo, Ndi.
    destruct (py_div_1 do_) as [rdo | e]; cbn [bind]; [|reflexivity].
    destruct (py_div_1 di) as [rdi | e]; cbn [bind]; [|reflexivity].
    destruct (fdiv one (fadd rdo rdi)) as [x | e]; cbn [bind]; [|reflexivity].
    eexists. reflexivity.
Qed.

(** C7. With exactly two of f, do, di provided, when the float the solving
    branch divides by compares equal to zero, [calculate_lens] raises
    [ZeroDivisionError] and returns no record. *)
Theorem lens_zero_denominator (f do_ di : value) (d : float) :
  provided f do_ di = 2%nat ->
  lens_denominator f do_ di = Ok d ->
  is_zero d = true ->
  calculate_lens repr_float f do_ di = Raise ZeroDivisionError.
Proof.
  intros Hp Hd Hz. pose proof (calculate_lens_solve f do_ di Hp) as H.
  unfold lens_solve in H. rewrite Hd in H. cbn [bind] in H.
  rewrite (fdiv_by_zero one d Hz) in H. exact H.
Qed.

(** What the float a branch divides by is made of. *)
Lemma lens_denominator_cases (f do_ di : value) :
  provided f do_ di = 2%nat ->
  match lens_denominator f do_ di with
  | Ok d =>
    zero_given f = false /\ zero_given do_ = false /\ zero_given di = false
  | Raise e =>
    e = ZeroDivisionError
    /\ (zero_given f = true \/ zero_given do_ = true \/ zero_given di = true)
  end.
Proof.
  intros Hp.
  destruct (provided_two_values f do_ di Hp)
    as [(Nf & Ndo & ->) | [(Nf & -> & Ndi) | (-> & Ndo & Ndi)]];
    unfold lens_denominator; cbn [is_none]; rewrite ?Ndi, ?Ndo.
  - pose proof (py_div_1_cases f) as Hf. pose proof (py_div_1_cases do_) as Hd.
    destruct (py_div_1 f) as [rf | e]; cbn [bind].
    + destruct (py_div_1 do_) as [rdo | e]; cbn [bind].
      * cbn [zero_given]. tauto.
      * destruct Hd as [(_ & ->) | (-> & Hd)]; [discriminate Ndo | auto].
    + destruct Hf as [(_ & ->) | (-> & Hf)]; [discriminate Nf | auto].
  - pose proof (py_div_1_cases f) as Hf. pose proof (py_div_1_cases di) as Hd.
    destruct (py_div_1 f) as [rf | e]; cbn [bind].
    + destruct (py_div_1 di) as [rdi | e]; cbn [bind].
      * cbn [zero_given]. tauto.
      * destruct Hd as [(_ & ->) | (-> & Hd)]; [discriminate Ndi | auto].
    + destruct Hf as [(_ & ->) | (-> & Hf)]; [discriminate Nf | auto].
  - pose proof (py_div_1_cases do_) as Hf. pose proof (py_div_1_cases di) as Hd.
    destruct (py_div_1 do_) as [rf | e]; cbn [bind].
    + destruct (py_div_1 di) as [rdi | e]; cbn [bind].
      * cbn [zero_given]. tauto.
      * destruct Hd as [(_ & ->) | (-> & Hd)]; [discriminate Ndi | auto].
    + destruct Hf as [(_ & ->) | (-> & Hf)]; [discriminate Ndo | auto].
Qed.

(** What a fault of the solver is made of. *)
Lemma lens_fault_cases (f do_ di : value) (e : fault) :
  calculate_lens repr_float f do_ di = Raise e ->
  e = ZeroDivisionError
  /\ provided f do_ di = 2%nat
  /\ (zero_given f = true \/ zero_given do_ = true \/ zero_given di = true
      \/ exists d, lens_denominator f do_ di = Ok d /\ is_zero d = true).
Proof.
  intros H.
  destruct (Nat.eqb_spec (provided f do_ di) 2) as [Hp | Hp].
  2:{ unfold calculate_lens in H.
      apply Nat.eqb_neq in Hp. rewrite Hp in H. discriminate H. }
  pose proof (calculate_lens_solve f do_ di Hp) as Hs.
  pose proof (lens_denominator_cases f do_ di Hp) as Hd.
  unfold lens_solve in Hs.
  destruct (lens_denominator f do_ di) as [d | e']; cbn [bind] in Hs.
  - unfold fdiv in Hs. destruct (is_zero d) eqn:Ez.
    + rewrite Hs in H. injection H as <-. eauto 10.
    + destruct Hs as (steps & Hs). rewrite Hs in H. discriminate H.
  - rewrite Hs in H. injection H as <-. destruct Hd as (-> & Hd).
    intuition.
Qed.

(** X4. [calculate_lens] raises nothing but [ZeroDivisionError], and raises
    it exactly when two values are provided and one of them compares equal
    to zero, or the float the solving branch divides by does; the
    fall-through after the three branches is never reached. *)
Theorem lens_faults (f do_ di : value) (e : fault) :
  calculate_lens repr_float f do_ di = Raise e <->
  e = ZeroDivisionError
  /\ provided f do_ di = 2%nat
  /\ (zero_given f = true \/ zero_given do_ = true \/ zero_given di = true
      \/ exists d, lens_denominator f do_ di = Ok d /\ is_zero d = true).
Proof.
  split; [apply lens_fault_cases|].
  intros (-> & Hp & Hz).
  pose proof (calculate_lens_solve f do_ di Hp) as Hs.
  pose proof (lens_denominator_cases f do_ di Hp) as Hd.
  unfold lens_solve in Hs.
  destruct (lens_denominator f do_ di) as [d | e']; cbn [bind] in Hs.
  - destruct Hd as (Zf & Zdo & Zdi).
    destruct Hz as [Hz | [Hz | [Hz | (d' & [= <-] & Hz)]]];
      try congruence.
    now rewrite (fdiv_by_zero one d Hz) in Hs.
  - destruct Hd as (-> & _). exact Hs.
Qed.

(** X20. The object at the focus ([do == f], solving for di): when [1 / f]
    is a finite float the call raises [ZeroDivisionError]; when [1 / f] is
    an infinity (a tiny [f]) or NaN, the difference of the reciprocals is
    NaN, nothing is raised, and the record answers "di = nan cm". *)
Theorem lens_object_at_focus (f : value) (r : float) :
  py_div_1 f = Ok r ->
  (is_finite r = true ->
   calculate_lens repr_float f f VNone = Raise ZeroDivisionError)
  /\ (is_finite r = false ->
      exists rec,
        calculate_lens repr_float f f VNone = Ok rec
        /\ Answer rec = U "di = nan cm"
        /\ animationData rec = Some (Lens f f (VFloat S754_nan))).
Proof.
  intros Hr.
  assert (Nf : is_none f = false) by (destruct f; [discriminate Hr | auto ..]).
  rewrite solve_di by assumption. rewrite Hr. cbn [bind].
  split; intros Hfin.
  - now rewrite (fdiv_by_zero one _ (fsub_diag r Hfin)).
  - assert (Hnan : fsub r r = S754_nan).
    { destruct r as [s | s | | s m e]; try discriminate Hfin;
        [destruct s|]; reflexivity. }
    rewrite Hnan. eexists. split; [reflexivity|]. split; reflexivity.
Qed.

End LensSolver.

(** ** The lens solver at sample inputs *)

(** [calculate_lens(4e-309, 4e-309, None)]: both reciprocals overflow to
    infinity, their difference is NaN, and NaN is the answer. *)
Lemma lens_nan_answer :
  provided (VFloat (quotient 4 (10 ^ 309))) (VFloat (quotient 4 (10 ^ 309)))
           VNone = 2%nat
  /\ exists r,
       calculate_lens repr_six_decimals (VFloat (quotient 4 (10 ^ 309)))
                      (VFloat (quotient 4 (10 ^ 309))) VNone = Ok r
       /\ Answer r = U "di = nan cm"
       /\ animationData r
          = Some (Lens (VFloat (quotient 4 (10 ^ 309)))
                       (VFloat (quotient 4 (10 ^ 309))) (VFloat S754_nan)).
Proof.
  split; [reflexivity|].
  rewrite solve_di by reflexivity.
  replace (py_div_1 (VFloat (quotient 4 (10 ^ 309))))
    with (Ok (S754_infinity false)) by (vm_compute; reflexivity).
  cbn [bind]. eexists. split; [reflexivity|]. split; reflexivity.
Qed.


(** ** The thin-lens identity on whole centimetres *)








Section ThinLens.

Variable repr_float : float -> str.


End ThinLens.

(** ** The patterns of the extractor and their reading as a scanner *)

Section DecimalPatterns.

Variable other_decimal : char -> option N.

(** No blank is a decimal digit. *)
Hypothesis other_blank : forall c, is_space c = true -> other_decimal c = None.

Lemma space_not_decimal (c : char) :
  is_space c = true -> is_decimal other_decimal c = false.
Proof.
  intros H. unfold is_decimal, to_decimal.
  destruct (c <? 128)%N.
  - pose proof (space_not_digit c H) as E. unfold is_digit in E.
    now rewrite E.
  - now rewrite (other_blank c H).
Qed.

Lemma decimal_not_sign (c : char) :
  is_decimal other_decimal c = true ->
  is_minus c = false /\ (c =? 43)%N = false /\ is_dot c = false.
Proof.
  intros H. unfold is_minus, is_dot.
  repeat split; apply N.eqb_neq; intros ->; discriminate H.
Qed.

Section DecimalMatcher.

Variable A : Type.

(** The captured number: digits, then a point if there is one, then
    digits, each repetition the longest possible. *)
Lemma run_decimal_group (s : str) (g : option str)
      (k : str -> option str -> option A) :
  (forall t h, k t h <> None) ->
  run (number_group other_decimal) s g k =
  match read_number other_decimal s with
  | Some (n, rest) => k rest (Some n)
  | None => None
  end.
Proof.
  intros Hk. unfold number_group, plus, read_number. cbn [run].
  destruct s as [| x s1]; [reflexivity|].
  destruct (is_decimal other_decimal x) eqn:Ex.
  2:{ rewrite span_cons_false by exact Ex. reflexivity. }
  rewrite span_cons_true by exact Ex.
  assert (Hstar : forall t,
             star (is_decimal other_decimal) t
                  (fun s' => k s' (Some (taken (x :: s1) s')))
             = k (snd (span (is_decimal other_decimal) t))
                 (Some (taken (x :: s1) (snd (span (is_decimal other_decimal) t))))).
  { intros t.
    apply (star_accepting A (is_decimal other_decimal)
             (fun s' => k s' (Some (taken (x :: s1) s')))).
    intros; apply Hk. }
  rewrite star_accepting.
  2:{ intros [| c r2].
      - rewrite Hstar. apply Hk.
      - destruct (c =? 46)%N; rewrite Hstar.
        + destruct (k _ _) eqn:E; [discriminate | now apply Hk in E].
        + apply Hk. }
  pose proof (span_app (is_decimal other_decimal) s1) as Happ.
  pose proof (span_snd_head (is_decimal other_decimal) s1) as Hhead.
  destruct (span (is_decimal other_decimal) s1) as [d1 r1]. cbn [fst snd] in *.
  destruct r1 as [| c r2].
  - rewrite Hstar. cbn [span snd]. subst s1. rewrite app_nil_r.
    replace (taken (x :: d1) []) with (x :: d1); [reflexivity|].
    rewrite <- (app_nil_r (x :: d1)) at 2. now rewrite taken_app.
  - unfold is_dot. destruct (c =? 46)%N eqn:Ec.
    + rewrite Hstar.
      pose proof (span_app (is_decimal other_decimal) r2) as Happ2.
      destruct (span (is_decimal other_decimal) r2) as [d2 r3]. cbn [fst snd] in *.
      destruct (k r3 (Some (taken (x :: s1) r3))) eqn:E;
        [|now apply Hk in E].
      rewrite <- E. f_equal. f_equal. subst s1 r2.
      change (x :: d1 ++ c :: d2 ++ r3) with ((x :: d1) ++ (c :: d2) ++ r3).
      rewrite app_assoc. rewrite taken_app. reflexivity.
    + rewrite Hstar.
      rewrite span_cons_false by (apply (Hhead c r2); reflexivity).
      cbn [snd]. f_equal. f_equal. subst s1.
      change (x :: d1 ++ c :: r2) with ((x :: d1) ++ c :: r2).
      now rewrite taken_app.
Qed.

(** The value part of a pattern: blanks, [=] or [:], blanks, the number. *)
Lemma run_decimal_value (s : str) (g : option str)
      (k : str -> option str -> option A) :
  (forall t h, k t h <> None) ->
  run (Seq (Star is_space)
           (Seq (Cls is_sep)
                (Seq (Star is_space) (number_group other_decimal)))) s g k =
  match read_value other_decimal s with
  | Some (n, rest) => k rest (Some n)
  | None => None
  end.
Proof.
  intros Hk. cbn [run]. unfold read_value, skip_blanks.
  rewrite star_refusing.
  2:{ intros c t Hc. now rewrite (space_not_sep c Hc). }
  destruct (snd (span is_space s)) as [| c r]; [reflexivity|].
  destruct (is_sep c); [|reflexivity].
  rewrite star_refusing.
  - apply run_decimal_group, Hk.
  - intros x t Hx. rewrite run_decimal_group by exact Hk.
    unfold read_number.
    now rewrite (span_cons_false (is_decimal other_decimal) x t
                   (space_not_decimal x Hx)).
Qed.

End DecimalMatcher.

Lemma first_name_read_decimal (s : str) (names : list str) :
  first_name names s None
    (fun r g =>
       run (Seq (Star is_space)
                (Seq (Cls is_sep)
                     (Seq (Star is_space) (number_group other_decimal)))) r g
           (fun s' g' => Some {| group0 := taken s s'; group1 := g' |}))
  = option_map (assignment_match s) (read_assignment other_decimal names s).
Proof.
  induction names as [| n names IH];
    cbn [first_name read_assignment]; [reflexivity|].
  destruct (strip_prefix n s) as [r|]; [|exact IH].
  rewrite run_decimal_value by (intros; discriminate).
  destruct (read_value other_decimal r) as [[m rest]|];
    [reflexivity | exact IH].
Qed.

(** A match of an assignment pattern at the head of a text is a reading of
    the assignment there. *)
Lemma match_at_decimal_assignment (names : list str) (s : str) :
  match_at (assignment other_decimal names) s
  = option_map (assignment_match s) (read_assignment other_decimal names s).
Proof.
  unfold match_at, assignment.
  change (run (Seq (one_of names) ?r) s None ?k)
    with (run (one_of names) s None (fun s' g' => run r s' g' k)).
  rewrite run_one_of. apply first_name_read_decimal.
Qed.

(** Searching an assignment pattern finds the first assignment: the
    captured group is the number the scanner reads. *)
Lemma search_decimal_assignment (names : list str) (s : str) :
  option_map group1 (search (assignment other_decimal names) s)
  = option_map (fun v => Some (fst v))
               (first_assignment other_decimal names s).
Proof.
  induction s as [| c s IH]; cbn [search first_assignment];
    rewrite match_at_decimal_assignment;
    destruct (read_assignment other_decimal names _) as [v|];
    try reflexivity.
  exact IH.
Qed.

Lemma float_group1_decimal_search (names : list str) (s : str) :
  float_group1 other_decimal (search (assignment other_decimal names) s)
  = match first_assignment other_decimal names s with
    | Some (n, _) => x <- py_float other_decimal n ;; Ok (Some x)
    | None => Ok None
    end.
Proof.
  pose proof (search_decimal_assignment names s) as H.
  unfold float_group1.
  destruct (search (assignment other_decimal names) s) as [m|],
           (first_assignment other_decimal names s) as [[n rest]|];
    simpl in H; try discriminate; [|reflexivity].
  injection H as ->. reflexivity.
Qed.

(** A number read by the scanner is a digit, more digits, and possibly a
    point followed by digits. *)
Lemma read_decimal_shape (s n rest : str) :
  read_number other_decimal s = Some (n, rest) ->
  exists x d1,
    is_decimal other_decimal x = true /\ forallb (is_decimal other_decimal) d1 = true
    /\ (n = x :: d1
        \/ exists d2, forallb (is_decimal other_decimal) d2 = true
                      /\ n = x :: d1 ++ 46%N :: d2).
Proof.
  unfold read_number.
  pose proof (span_fst_all (is_decimal other_decimal) s) as Hall.
  destruct (span (is_decimal other_decimal) s) as [d r1]. cbn [fst] in Hall.
  destruct d as [| x d1]; [discriminate|].
  cbn [forallb] in Hall. apply andb_true_iff in Hall as [Hx Hd1].
  destruct r1 as [| c r2].
  - intros [= <- _]. exists x, d1. auto.
  - destruct (is_dot c) eqn:Ec.
    + pose proof (span_fst_all (is_decimal other_decimal) r2) as Hall2.
      destruct (span (is_decimal other_decimal) r2) as [d2 r3]. cbn [fst] in Hall2.
      intros [= <- _]. exists x, d1. repeat split; try assumption.
      right. exists d2. split; [assumption|].
      unfold is_dot in Ec. apply N.eqb_eq in Ec. now subst c.
    + intros [= <- _]. exists x, d1. auto.
Qed.

(** [float] of a number the scanner reads is the float nearest to the
    number it writes: it raises nothing. *)
Lemma py_float_numeral (s n rest : str) :
  read_number other_decimal s = Some (n, rest) ->
  py_float other_decimal n = Ok (numeral_float other_decimal n).
Proof.
  intros H. destruct (read_decimal_shape s n rest H)
    as (x & d1 & Hx & Hd1 & [-> | (d2 & Hd2 & ->)]);
    destruct (decimal_not_sign x Hx) as (Hm & Hp & _);
    unfold py_float, numeral_float; rewrite Hm, Hp; cbn [fst snd].
  - rewrite <- (app_nil_r (x :: d1)).
    rewrite span_all_app by (cbn [forallb]; rewrite ?Hx, ?Hd1; auto).
    reflexivity.
  - change (x :: d1 ++ 46%N :: d2) with ((x :: d1) ++ 46%N :: d2).
    rewrite span_all_app by (cbn [forallb]; rewrite ?Hx, ?Hd1; auto).
    rewrite Hd2.
    replace (is_dot 46%N && true
             && negb (Nat.eqb (length (x :: d1) + length d2) 0))
      with true by reflexivity.
    reflexivity.
Qed.

Lemma read_value_numeral (s n rest : str) :
  read_value other_decimal s = Some (n, rest) ->
  exists t, read_number other_decimal t = Some (n, rest).
Proof.
  unfold read_value. destruct (skip_blanks s) as [| c r]; [discriminate|].
  destruct (is_sep c); [|discriminate]. eauto.
Qed.

Lemma read_assignment_numeral (names : list str) (s n rest : str) :
  read_assignment other_decimal names s = Some (n, rest) ->
  exists t, read_number other_decimal t = Some (n, rest).
Proof.
  induction names as [| w names IH]; cbn [read_assignment]; [discriminate|].
  destruct (strip_prefix w s) as [r|]; [|exact IH].
  destruct (read_value other_decimal r) as [v|] eqn:E; [|exact IH].
  intros [= ->]. eapply read_value_numeral, E.
Qed.

Lemma first_assignment_numeral (names : list str) (s n rest : str) :
  first_assignment other_decimal names s = Some (n, rest) ->
  exists t, read_number other_decimal t = Some (n, rest).
Proof.
  induction s as [| c s IH]; cbn [first_assignment];
    destruct (read_assignment other_decimal names _) as [v|] eqn:E;
    try discriminate; try exact IH;
    intros [= ->]; eapply read_assignment_numeral, E.
Qed.

(** Each search of the extractor ends in a field that holds the number of
    the first occurrence, or nothing. *)
Lemma float_group1_decimal_found (names : list str) (s : str) :
  exists field,
    float_group1 other_decimal (search (assignment other_decimal names) s)
    = Ok field
    /\ found other_decimal names s field.
Proof.
  rewrite float_group1_decimal_search. unfold found.
  destruct (first_assignment other_decimal names s) as [[n rest]|] eqn:E.
  - destruct (first_assignment_numeral names s n rest E) as (t & Ht).
    rewrite (py_float_numeral t n rest Ht). cbn [bind]. eauto.
  - eauto.
Qed.

Lemma extract_decimal_found (text : str) :
  exists ps,
    extract other_decimal text = Ok ps
    /\ found other_decimal [U "n1"] text (p_n1 ps)
    /\ found other_decimal [U "n2"] text (p_n2 ps)
    /\ found other_decimal [U "theta1"; U "θ1"; U "angle"] text (p_theta1 ps)
    /\ found other_decimal [U "f"] text (p_f ps)
    /\ found other_decimal [U "do"] text (p_do ps)
    /\ found other_decimal [U "di"] text (p_di ps).
Proof.
  unfold extract, re_n1, re_n2, re_theta1, re_f, re_do, re_di.
  destruct (float_group1_decimal_found [U "n1"] text) as (n1 & -> & H1).
  destruct (float_group1_decimal_found [U "n2"] text) as (n2 & -> & H2).
  destruct (float_group1_decimal_found [U "theta1"; U "θ1"; U "angle"] text)
    as (t1 & -> & H3).
  destruct (float_group1_decimal_found [U "f"] text) as (f & -> & H4).
  destruct (float_group1_decimal_found [U "do"] text) as (d & -> & H5).
  destruct (float_group1_decimal_found [U "di"] text) as (i & -> & H6).
  cbn [bind]. eexists. split; [reflexivity|]. cbn. auto 10.
Qed.

(** The sample text of the specification. *)
Lemma extract_sample :
  extract other_decimal (U "n1=1 n2=1.5 angle=45")
  = Ok {| p_n1 := Some one; p_n2 := Some (quotient 15 10);
          p_theta1 := Some (quotient 45 1);
          p_f := None; p_do := None; p_di := None |}.
Proof. vm_compute. reflexivity. Qed.

End DecimalPatterns.

(** C6. Whatever the decimal digits beyond ASCII are (no blank among
    them): for every text, the extractor gives each of n1, n2, theta1
    (names theta1, θ1, angle), f, do, di the float of the number of the
    first occurrence of its name followed by optional blanks, [=] or [:],
    optional blanks and a decimal number, and leaves it absent when there
    is no such occurrence (the searches of the program agree with the
    scanner [first_assignment], and [float] raises nothing); and the text
    "n1=1 n2=1.5 angle=45" gives n1 = 1.0, n2 = 1.5, theta1 = 45.0, no lens
    parameter, and goes to the Snell solver with these values. *)
Theorem extractor_first_occurrence (other_decimal : char -> option N) :
  (forall c, is_space c = true -> other_decimal c = None) ->
  (forall names text,
      option_map group1 (search (assignment other_decimal names) text)
      = option_map (fun v => Some (fst v))
                   (first_assignment other_decimal names text))
  /\ (forall text, exists ps,
         extract other_decimal text = Ok ps
         /\ found other_decimal [U "n1"] text (p_n1 ps)
         /\ found other_decimal [U "n2"] text (p_n2 ps)
         /\ found other_decimal [U "theta1"; U "θ1"; U "angle"] text
                  (p_theta1 ps)
         /\ found other_decimal [U "f"] text (p_f ps)
         /\ found other_decimal [U "do"] text (p_do ps)
         /\ found other_decimal [U "di"] text (p_di ps))
  /\ extract other_decimal (U "n1=1 n2=1.5 angle=45")
     = Ok {| p_n1 := Some one; p_n2 := Some (quotient 15 10);
             p_theta1 := Some (quotient 45 1);
             p_f := None; p_do := None; p_di := None |}
  /\ any_in refraction_words (U "n1=1 n2=1.5 angle=45") = true
  /\ (forall lower repr_float str_exc calculate_snell,
         lower (U "n1=1 n2=1.5 angle=45") = U "n1=1 n2=1.5 angle=45" ->
         analyze_problem lower repr_float str_exc other_decimal
                         calculate_snell (Some (U "n1=1 n2=1.5 angle=45"))
         = match calculate_snell (VFloat one) (VFloat (quotient 15 10))
                                 (VFloat (quotient 45 1)) with
           | Ok r => [r]
           | Raise e => [failure_record str_exc e]
           end).
Proof.
  intros Hblank.
  split; [exact (search_decimal_assignment other_decimal Hblank)|].
  split; [exact (extract_decimal_found other_decimal Hblank)|].
  split; [exact (extract_sample other_decimal)|].
  split; [reflexivity|].
  intros lower repr_float str_exc calculate_snell Hlower.
  unfold analyze_problem, analyze_text. cbn [get_or]. rewrite Hlower.
  rewrite extract_sample. cbn [bind].
  replace (any_in refraction_words (U "n1=1 n2=1.5 angle=45")) with true
    by reflexivity.
  unfold param_or. cbn [get_or p_n1 p_n2 p_theta1].
  destruct (calculate_snell _ _ _); reflexivity.
Qed.

(** ** The free-text mode *)

Section AnalyzeOutcomes.

Variable lower : str -> str.
Variable repr_float : float -> str.
Variable str_exc : fault -> str.
Variable other_decimal : char -> option N.
Variable calculate_snell : value -> value -> value -> result record.

(** X18. [/analyze] answers with a list of exactly one record.  The
    extraction raises nothing.  A text with a refraction word gets the
    record of the Snell solver on the extracted n1, n2, theta1 (1.0, 1.5,
    30.0 for those not found), or the failure record of what the solver
    raised; otherwise a text with a lens word gets the record of
    [calculate_lens] on the extracted f, do, di, or the failure record of a
    [ZeroDivisionError], the only fault of that path; any other text gets
    the record that asks for keywords. *)
Theorem analyze_outcomes (problem : option str) :
  (forall c, is_space c = true -> other_decimal c = None) ->
  exists ps,
    extract other_decimal (lower (get_or problem [])) = Ok ps
    /\ analyze_problem lower repr_float str_exc other_decimal calculate_snell
                       problem
       = if any_in refraction_words (lower (get_or problem [])) then
           match calculate_snell (VFloat (get_or (p_n1 ps) one))
                   (VFloat (get_or (p_n2 ps) (quotient 15 10)))
                   (VFloat (get_or (p_theta1 ps) (quotient 30 1))) with
           | Ok r => [r]
           | Raise e => [failure_record str_exc e]
           end
         else if any_in lens_words (lower (get_or problem [])) then
           match calculate_lens repr_float (param (p_f ps)) (param (p_do ps))
                                (param (p_di ps)) with
           | Ok r => [r]
           | Raise _ => [failure_record str_exc ZeroDivisionError]
           end
         else [unrecognized_record].
Proof.
  intros Hblank.
  destruct (extract_decimal_found other_decimal Hblank
              (lower (get_or problem []))) as (ps & Hps & _).
  exists ps. split; [exact Hps|].
  unfold analyze_problem, analyze_text. rewrite Hps. cbn [bind].
  destruct (any_in refraction_words _).
  - unfold param_or. destruct (calculate_snell _ _ _); reflexivity.
  - destruct (any_in lens_words _); [|reflexivity].
    destruct (calculate_lens repr_float _ _ _) as [r | e] eqn:E;
      [reflexivity|].
    apply lens_fault_cases in E as (-> & _). reflexivity.
Qed.

End AnalyzeOutcomes.

(** ** The theorems of this reading at concrete inputs *)

(** The object at the focal point, f = do = 10; and two different floats
    whose reciprocals are the same float, f = 1.9999999999999998 and
    do = 1.9999999999999996. *)
Lemma lens_zero_denominator_witness :
  calculate_lens repr_six_decimals (VInt 10) (VInt 10) VNone
  = Raise ZeroDivisionError
  /\ calculate_lens repr_six_decimals
       (VFloat (quotient 19999999999999998 (10 ^ 16)))
       (VFloat (quotient 19999999999999996 (10 ^ 16))) VNone
     = Raise ZeroDivisionError.
Proof.
  split.
  - apply (lens_zero_denominator repr_six_decimals (VInt 10) (VInt 10) VNone
             (S754_zero false)).
    + reflexivity.
    + vm_compute. reflexivity.
    + reflexivity.
  - apply (lens_zero_denominator repr_six_decimals
             (VFloat (quotient 19999999999999998 (10 ^ 16)))
             (VFloat (quotient 19999999999999996 (10 ^ 16))) VNone
             (S754_zero false)).
    + reflexivity.
    + vm_compute. reflexivity.
    + reflexivity.
Defined.


Lemma arabic_indic_blank (c : char) :
  is_space c = true -> arabic_indic c = None.
Proof.
  intros H. unfold arabic_indic.
  destruct ((1632 <=? c)%N && (c <=? 1641)%N) eqn:E; [|reflexivity].
  apply andb_true_iff in E as [E1 E2].
  apply N.leb_le in E1. apply N.leb_le in E2.
  unfold is_space in H.
  repeat rewrite orb_true_iff in H. repeat rewrite andb_true_iff in H.
  repeat rewrite N.leb_le in H. repeat rewrite N.eqb_eq in H. lia.
Qed.

(** A text written with an Arabic-Indic numeral: n1 = 3.5. *)
Lemma extract_arabic_indic :
  extract arabic_indic (U "refract n1=٣.٥")
  = Ok {| p_n1 := Some (quotient 35 10); p_n2 := None; p_theta1 := None;
          p_f := None; p_do := None; p_di := None |}.
Proof. vm_compute. reflexivity. Qed.

Lemma extractor_first_occurrence_witness :
  exists ps,
    extract arabic_indic (U "refract n1=٣.٥") = Ok ps
    /\ found arabic_indic [U "n1"] (U "refract n1=٣.٥") (p_n1 ps)
    /\ found arabic_indic [U "n2"] (U "refract n1=٣.٥") (p_n2 ps)
    /\ found arabic_indic [U "theta1"; U "θ1"; U "angle"]
             (U "refract n1=٣.٥") (p_theta1 ps)
    /\ found arabic_indic [U "f"] (U "refract n1=٣.٥") (p_f ps)
    /\ found arabic_indic [U "do"] (U "refract n1=٣.٥") (p_do ps)
    /\ found arabic_indic [U "di"] (U "refract n1=٣.٥") (p_di ps).
Proof.
  exact (proj1 (proj2 (extractor_first_occurrence arabic_indic
                         arabic_indic_blank))
               (U "refract n1=٣.٥")).
Defined.

(** A focal length below the reciprocal's range: 1 / 4e-309 is infinite. *)
Lemma lens_object_at_focus_witness :
  exists rec,
    calculate_lens repr_six_decimals (VFloat (quotient 4 (10 ^ 309)))
                   (VFloat (quotient 4 (10 ^ 309))) VNone = Ok rec
    /\ Answer rec = U "di = nan cm"
    /\ animationData rec
       = Some (Lens (VFloat (quotient 4 (10 ^ 309)))
                    (VFloat (quotient 4 (10 ^ 309))) (VFloat S754_nan)).
Proof.
  apply (proj2 (lens_object_at_focus repr_six_decimals
                  (VFloat (quotient 4 (10 ^ 309))) (S754_infinity false)
                  ltac:(vm_compute; reflexivity))).
  reflexivity.
Defined.

(** A lens text written with Arabic-Indic digits: f = 10, do = 30. *)
Lemma analyze_outcomes_witness :
  exists ps,
    extract arabic_indic
            (ascii_lower (get_or (Some (U "LENS: f = ١٠, do = ٣٠")) []))
    = Ok ps
    /\ analyze_problem ascii_lower repr_six_decimals fault_name arabic_indic
                       no_snell (Some (U "LENS: f = ١٠, do = ٣٠"))
       = if any_in refraction_words
                   (ascii_lower (get_or (Some (U "LENS: f = ١٠, do = ٣٠")) []))
         then
           match no_snell (VFloat (get_or (p_n1 ps) one))
                   (VFloat (get_or (p_n2 ps) (quotient 15 10)))
                   (VFloat (get_or (p_theta1 ps) (quotient 30 1))) with
           | Ok r => [r]
           | Raise e => [failure_record fault_name e]
           end
         else if any_in lens_words
                   (ascii_lower (get_or (Some (U "LENS: f = ١٠, do = ٣٠")) []))
         then
           match calculate_lens repr_six_decimals (param (p_f ps))
                                (param (p_do ps)) (param (p_di ps)) with
           | Ok r => [r]
           | Raise _ => [failure_record fault_name ZeroDivisionError]
           end
         else [unrecognized_record].
Proof.
  apply (analyze_outcomes ascii_lower repr_six_decimals fault_name
           arabic_indic no_snell (Some (U "LENS: f = ١٠, do = ٣٠"))).
  exact arabic_indic_blank.
Defined.

End Binary64Properties.
